(** * PS4 package renamer: a shallow embedding of [ps4-renamer.py]

    The development follows the class [PS4FileRenamer]: the string helpers
    ([sanitize_filename], [format_version]), the filename parser
    ([parse_filename]), the two catalog loaders ([load_csv_data],
    [load_json_data]), the name generator ([generate_new_filename]) and the
    rename pass ([rename_file], [process_directory], [save_report]).

    Strings are Rocq strings whose characters are read as the code points
    0..255 of a Python [str]; the game database (a Python dict) is a [gmap]
    keyed by the identifier. *)

From stdpp Require Import gmap strings list pretty.
From Stdlib Require Import Ascii.

(** ** Character classes and [str] methods *)

Module PyStr.

(** [str.isspace], which is also what [\s] and [str.strip()] use: for code
    points below 256 these are 9..13, 28..32, 133 and 160. *)
Definition isspace (c : ascii) : bool :=
  let n := N_of_ascii c in
  ((9 <=? n) && (n <=? 13) || (28 <=? n) && (n <=? 32)
   || (n =? 133) || (n =? 160))%N.

(** [\d]: below code point 256 the decimal digits are 0..9 only. *)
Definition isdigit (c : ascii) : bool :=
  let n := N_of_ascii c in ((48 <=? n) && (n <=? 57))%N.

(** [[A-Z]] *)
Definition isupper (c : ascii) : bool :=
  let n := N_of_ascii c in ((65 <=? n) && (n <=? 90))%N.

(** [[A-Z0-9]] *)
Definition isupper_or_digit (c : ascii) : bool := isupper c || isdigit c.

Fixpoint all (p : ascii → bool) (s : string) : bool :=
  match s with
  | EmptyString => true
  | String c s' => p c && all p s'
  end.

Fixpoint filter (p : ascii → bool) (s : string) : string :=
  match s with
  | EmptyString => EmptyString
  | String c s' => if p c then String c (filter p s') else filter p s'
  end.

Definition is_empty (s : string) : bool :=
  match s with EmptyString => true | _ => false end.

Fixpoint take (n : nat) (s : string) : string :=
  match n, s with
  | S n', String c s' => String c (take n' s')
  | _, _ => EmptyString
  end.

Fixpoint drop (n : nat) (s : string) : string :=
  match n, s with
  | S n', String _ s' => drop n' s'
  | _, _ => s
  end.

(** [s.startswith(p)] together with the rest of [s] after [p]. *)
Fixpoint strip_prefix (p s : string) : option string :=
  match p, s with
  | EmptyString, _ => Some s
  | String a p', String b s' => if Ascii.eqb a b then strip_prefix p' s' else None
  | String _ _, EmptyString => None
  end.

(** [s.replace(ch, '')] for a one-character [ch]. *)
Definition remove_char (ch : ascii) (s : string) : string :=
  filter (λ c, negb (Ascii.eqb c ch)) s.

(** Dropping the leading, resp. trailing, characters of a class. *)
Fixpoint ltrim (p : ascii → bool) (s : string) : string :=
  match s with
  | EmptyString => EmptyString
  | String c s' => if p c then ltrim p s' else s
  end.

Fixpoint rtrim (p : ascii → bool) (s : string) : string :=
  match s with
  | EmptyString => EmptyString
  | String c s' =>
      let r := rtrim p s' in
      if is_empty r && p c then EmptyString else String c r
  end.

(** [s.strip()] *)
Definition strip (s : string) : string := rtrim isspace (ltrim isspace s).

(** The longest prefix of [s] made of characters of the class, and the
    rest of [s]. *)
Fixpoint span (p : ascii → bool) (s : string) : string * string :=
  match s with
  | EmptyString => (EmptyString, EmptyString)
  | String c s' =>
      if p c then let '(m, r) := span p s' in (String c m, r)
      else (EmptyString, s)
  end.

(** [s.zfill(2)]: zeros are inserted after a leading sign. *)
Definition zfill2 (s : string) : string :=
  match s with
  | EmptyString => "00"
  | String c EmptyString =>
      if Ascii.eqb c "+" || Ascii.eqb c "-" then String c "0" else String "0" s
  | _ => s
  end.

(** [s.replace(old, '')] for a non-empty [old]: occurrences are removed
    from left to right, without overlap. [skip] counts the characters of
    the current occurrence still to be dropped. *)
Fixpoint remove_sub_go (old : string) (skip : nat) (s : string) : string :=
  match s with
  | EmptyString => EmptyString
  | String c s' =>
      match skip with
      | S k => remove_sub_go old k s'
      | O =>
          match strip_prefix old s with
          | Some _ => remove_sub_go old (String.length old - 1) s'
          | None => String c (remove_sub_go old 0 s')
          end
      end
  end.

Definition remove_sub (old s : string) : string := remove_sub_go old 0 s.

(** [re.sub(r'\s+', ' ', s)]; [in_run] tells that the previous character
    belonged to the whitespace run being replaced. *)
Fixpoint sub_spaces (in_run : bool) (s : string) : string :=
  match s with
  | EmptyString => EmptyString
  | String c s' =>
      if isspace c
      then (if in_run then sub_spaces true s' else String " "%char (sub_spaces true s'))
      else String c (sub_spaces false s')
  end.

(** [s.endswith(p)] *)
Definition endswith (p s : string) : bool :=
  String.eqb (drop (String.length s - String.length p) s) p
  && (String.length p <=? String.length s).

End PyStr.

(** ** [sanitize_filename] *)

Definition invalid_chars : list ascii :=
  ["<"; ">"; ":"; "034"; "/"; "\"; "|"; "?"; "*"]%char.

Definition sanitize_filename (filename : string) : string :=
  let filename := foldl (λ name char, PyStr.remove_char char name) filename invalid_chars in
  let filename := PyStr.sub_spaces false filename in
  PyStr.strip filename.

(** ** [int(s)] and [str(n)] *)

Module PyInt.

(** The whitespace that [int] strips around the number: 9..13 and 32, and
    above code point 127 what [str.isspace] accepts (133 and 160). The
    separators 28..31 are not stripped by [int]. *)
Definition isspace (c : ascii) : bool :=
  let n := N_of_ascii c in
  ((9 <=? n) && (n <=? 13) || (n =? 32) || (n =? 133) || (n =? 160))%N.

Definition digit (c : ascii) : Z := Z.of_N (N_of_ascii c) - 48.

(** Digits, with single underscores allowed between two digits.
    [after_digit] tells that the previous character was a digit. *)
Fixpoint digits (acc : Z) (after_digit : bool) (s : string) : option Z :=
  match s with
  | EmptyString => if after_digit then Some acc else None
  | String c s' =>
      if PyStr.isdigit c then digits (10 * acc + digit c) true s'
      else if Ascii.eqb c "_" && after_digit then digits acc false s'
      else None
  end.

(** [int(s)] in base 10; [None] stands for [ValueError]. Integers are
    unbounded: the limit that recent interpreters put on the number of
    digits of a conversion is not modelled. *)
Definition int (s : string) : option Z :=
  match PyStr.rtrim isspace (PyStr.ltrim isspace s) with
  | String c r =>
      if Ascii.eqb c "+" then digits 0 false r
      else if Ascii.eqb c "-" then Z.opp <$> digits 0 false r
      else digits 0 false (String c r)
  | EmptyString => None
  end.

(** [str(n)] *)
Definition str (n : Z) : string := pretty n.

End PyInt.

(** ** [format_version] *)

(** [re.match(r'^\d{1,2}\.\d{2}$', s)]: [$] also matches just before a
    newline that ends the string. *)
Definition at_end (s : string) : bool :=
  match s with
  | EmptyString => true
  | String c EmptyString => Ascii.eqb c "010"
  | _ => false
  end.

Definition dotted_tail (s : string) : bool :=
  match s with
  | String d (String m1 (String m2 r)) =>
      Ascii.eqb d "." && PyStr.isdigit m1 && PyStr.isdigit m2 && at_end r
  | _ => false
  end.

Definition matches_dotted (s : string) : bool :=
  match s with
  | String a r =>
      PyStr.isdigit a
      && (dotted_tail r
          || match r with String b r' => PyStr.isdigit b && dotted_tail r' | _ => false end)
  | EmptyString => false
  end.

(** [version_str] is [None] for Python's [None]. The [except] clause is the
    [None] branch of [PyInt.int]. *)
Definition format_version (version_str : option string) : string :=
  match version_str with
  | None => "1.00"
  | Some v =>
      if PyStr.is_empty v then "1.00"
      else if matches_dotted v then v
      else if 3 <=? String.length v then
        let head := PyStr.take (String.length v - 2) v in
        let major :=
          if PyStr.is_empty head then Some "1" else PyInt.str <$> PyInt.int head in
        match major with
        | Some major => major +:+ "." +:+ PyStr.drop (String.length v - 2) v
        | None => v
        end
      else "1." +:+ PyStr.zfill2 v
  end.

(** ** [parse_filename] *)

(** Matching at the start of a string. Every repetition in the patterns of
    this program is followed by a literal outside its class, or ends the
    pattern, so the match found by the backtracking engine is the one that
    takes each run whole: the matchers below consume runs with [PyStr.span].
    Each returns what it matched and the rest of the subject. *)
Module Re.

(** [c+] for a character class [c] *)
Definition many1 (p : ascii → bool) (s : string) : option (string * string) :=
  let '(m, r) := PyStr.span p s in
  if PyStr.is_empty m then None else Some (m, r).

(** [c{n}] *)
Fixpoint exactly (n : nat) (p : ascii → bool) (s : string) : option (string * string) :=
  match n with
  | O => Some (EmptyString, s)
  | S n' =>
      match s with
      | String c s' =>
          if p c then '(m, r) ← exactly n' p s'; Some (String c m, r) else None
      | EmptyString => None
      end
  end.

(** a literal *)
Definition lit (l : string) (s : string) : option string := PyStr.strip_prefix l s.

(** [(?:_(\d+))?]: the group takes part only when an underscore and at
    least one digit follow. *)
Definition opt_part (s : string) : option string :=
  r ← lit "_" s; '(m, _) ← many1 PyStr.isdigit r; Some m.

End Re.

(** [([A-Z]{2}\d+)-([A-Z]{4}\d+)_\d+-([A-Z0-9]+)-A(\d+)-V(\d+)], with the
    rest of the subject after the match. *)
Definition match_full (s : string) : option (list (option string) * string) :=
  '(p1, s) ← Re.exactly 2 PyStr.isupper s;
  '(p2, s) ← Re.many1 PyStr.isdigit s;
  s ← Re.lit "-" s;
  '(c1, s) ← Re.exactly 4 PyStr.isupper s;
  '(c2, s) ← Re.many1 PyStr.isdigit s;
  s ← Re.lit "_" s;
  '(_, s) ← Re.many1 PyStr.isdigit s;
  s ← Re.lit "-" s;
  '(t, s) ← Re.many1 PyStr.isupper_or_digit s;
  s ← Re.lit "-A" s;
  '(a, s) ← Re.many1 PyStr.isdigit s;
  s ← Re.lit "-V" s;
  '(v, s) ← Re.many1 PyStr.isdigit s;
  Some ([Some (p1 +:+ p2); Some (c1 +:+ c2); Some t; Some a; Some v], s).

(** The three patterns of [parse_filename], in its order; each gives
    [match.groups()], where a group that took no part is [None]. *)
Definition pattern_standard (s : string) : option (list (option string)) :=
  '(groups, s) ← match_full s; Some (groups ++ [Re.opt_part s]).

Definition pattern_alternative (s : string) : option (list (option string)) :=
  fst <$> match_full s.

Definition pattern_simple (s : string) : option (list (option string)) :=
  '(c1, s) ← Re.exactly 4 PyStr.isupper s;
  '(c2, s) ← Re.many1 PyStr.isdigit s;
  s ← Re.lit "-" s;
  '(t, s) ← Re.many1 PyStr.isupper_or_digit s;
  s ← Re.lit "-V" s;
  '(v, _) ← Re.many1 PyStr.isdigit s;
  Some [Some (c1 +:+ c2); Some t; Some v].

Definition patterns : list (string → option (list (option string))) :=
  [pattern_standard; pattern_alternative; pattern_simple].

(** The dict returned by [parse_filename]; a field is [None] where the dict
    holds Python's [None]. *)
Record parsed_data := {
  publisher : option string;
  cusa : option string;
  title_code : option string;
  app_version : option string;
  version : option string;
  part : option string
}.

(** [groups[i]] *)
Definition group (groups : list (option string)) (i : nat) : option string :=
  default None (groups !! i).

(** Truth value of a string-or-[None]. *)
Definition truthy (o : option string) : bool :=
  match o with Some s => negb (PyStr.is_empty s) | None => false end.

(** The dict built from the groups of a full-format match. *)
Definition full_format (groups : list (option string)) : parsed_data :=
  {| publisher := group groups 0;
     cusa := group groups 1;
     title_code := group groups 2;
     app_version := group groups 3;
     version := group groups 4;
     part := if (5 <? length groups) && truthy (group groups 5)
             then group groups 5 else None |}.

(** The dict built from the groups of a simple-format match. *)
Definition simple_format (groups : list (option string)) : parsed_data :=
  {| cusa := group groups 0;
     title_code := group groups 1;
     version := group groups 2;
     publisher := None;
     app_version := None;
     part := None |}.

(** The loop [for pattern in patterns]. *)
Fixpoint parse_with (patterns : list (string → option (list (option string))))
    (base_name : string) : option parsed_data :=
  match patterns with
  | [] => None
  | pattern :: rest =>
      match pattern base_name with
      | Some groups =>
          if 5 <=? length groups then Some (full_format groups)
          else if 3 <=? length groups then Some (simple_format groups)
          else parse_with rest base_name
      | None => parse_with rest base_name
      end
  end.

Definition parse_filename (filename : string) : option parsed_data :=
  let base_name := PyStr.remove_sub ".pkg" filename in
  parse_with patterns base_name.

(** An identifier: four uppercase letters followed by digits, and nothing
    else. *)
Definition is_identifier (s : string) : bool :=
  match Re.exactly 4 PyStr.isupper s with
  | Some (_, r) => negb (PyStr.is_empty r) && PyStr.all PyStr.isdigit r
  | None => false
  end.

(** ** The game database and its loaders *)

(** A value of [game_database]: the dict with keys [name], [version] and
    [source]. [version] is [None] where a JSON catalog had [null]. *)
Module GameInfo.
Record t := { name : string; version : option string; source : string }.
End GameInfo.

Abbreviation database := (gmap string GameInfo.t).

(** [re.match(r'(CUSA\d+)', s)] *)
Definition match_cusa (s : string) : option string :=
  r ← Re.lit "CUSA" s; '(ds, _) ← Re.many1 PyStr.isdigit r; Some ("CUSA" +:+ ds).

(** [re.search(r'(CUSA\d+)', s)], giving [group(1)] of the leftmost match. *)
Fixpoint search_cusa (s : string) : option string :=
  match match_cusa s with
  | Some c => Some c
  | None =>
      match s with
      | EmptyString => None
      | String _ s' => search_cusa s'
      end
  end.

(** What [pd.read_csv] returns: the column names and, per row, the [str()]
    of each cell under its column name. *)
Module Csv.
Record data_frame := {
  columns : list string;
  rows : list (gmap string string)
}.
End Csv.

(** The loop over [df.iterrows()]. The count is [None] once an exception
    left the loop ([KeyError] on a missing cell); the records stored before
    it stay in the database. *)
Fixpoint load_csv_rows (csv_file : string) (rows : list (gmap string string))
    (db : database) (loaded_count : nat) : database * option nat :=
  match rows with
  | [] => (db, Some loaded_count)
  | row :: rest =>
      match row !! "Title_ID", row !! "Title_Name" with
      | Some id_cell, Some name_cell =>
          let title_id := PyStr.strip id_cell in
          let title_name := PyStr.strip name_cell in
          match search_cusa title_id with
          | Some cusa =>
              let version := PyStr.strip (default "1.00" (row !! "Version")) in
              load_csv_rows csv_file rest
                (<[cusa := {| GameInfo.name := title_name;
                              GameInfo.version := Some version;
                              GameInfo.source := "CSV:" +:+ csv_file |}]> db)
                (S loaded_count)
          | None => load_csv_rows csv_file rest db loaded_count
          end
      | _, _ => (db, None)
      end
  end.

(** [load_csv_data]: [content] is [None] when reading the file raises. The
    result is the database after the call and the returned count. *)
Definition load_csv_data (db : database) (csv_file : string)
    (content : option Csv.data_frame) : database * nat :=
  match content with
  | None => (db, 0)
  | Some df =>
      if bool_decide ("Title_ID" ∈ Csv.columns df)
         && bool_decide ("Title_Name" ∈ Csv.columns df)
      then
        match load_csv_rows csv_file (Csv.rows df) db 0 with
        | (db', Some loaded_count) => (db', loaded_count)
        | (db', None) => (db', 0)
        end
      else (db, 0)
  end.

(** The JSON values the loader reads: a string or [null]. A field of an
    entry is [None] when the key is missing. *)
Module Json.
Inductive value := Null | Str (s : string).

#[global] Instance value_eq_dec : EqDecision value.
Proof. solve_decision. Defined.

Record result := {
  status : option value;
  has_updates : bool;
  title_id : option value;
  title_name : option value;
  sony_game_name : option value;
  latest_version : option value
}.

(** The document: [results] is [None] when it has no such key. *)
Record document := { results : option (list result) }.
End Json.

(** The loop over [data['results']]; [re.search] on [null] raises
    [TypeError], which leaves the loop. *)
Fixpoint load_json_results (json_file : string) (results : list Json.result)
    (db : database) (loaded_count : nat) : database * option nat :=
  match results with
  | [] => (db, Some loaded_count)
  | result :: rest =>
      if bool_decide (Json.status result = Some (Json.Str "found"))
         && Json.has_updates result
      then
        let title_id := default (Json.Str "") (Json.title_id result) in
        let title_name :=
          default (default (Json.Str "") (Json.sony_game_name result))
                  (Json.title_name result) in
        match title_id with
        | Json.Null => (db, None)
        | Json.Str title_id =>
            match search_cusa title_id, title_name with
            | Some cusa, Json.Str name =>
                if negb (PyStr.is_empty name) then
                  let latest_version :=
                    match default (Json.Str "1.00") (Json.latest_version result) with
                    | Json.Str v => Some v
                    | Json.Null => None
                    end in
                  load_json_results json_file rest
                    (<[cusa := {| GameInfo.name := name;
                                  GameInfo.version := latest_version;
                                  GameInfo.source := "JSON:" +:+ json_file |}]> db)
                    (S loaded_count)
                else load_json_results json_file rest db loaded_count
            | _, _ => load_json_results json_file rest db loaded_count
            end
        end
      else load_json_results json_file rest db loaded_count
  end.

(** [load_json_data]: [content] is [None] when opening or decoding the file
    raises. *)
Definition load_json_data (db : database) (json_file : string)
    (content : option Json.document) : database * nat :=
  match content with
  | None => (db, 0)
  | Some data =>
      match Json.results data with
      | Some results =>
          match load_json_results json_file results db 0 with
          | (db', Some loaded_count) => (db', loaded_count)
          | (db', None) => (db', 0)
          end
      | None => (db, 0)
      end
  end.

(** ** [generate_new_filename] *)

(** ["_Part<part>"] when the parsed name has a part, else the empty
    string. *)
Definition part_suffix (parsed : parsed_data) : string :=
  match part parsed with
  | Some p => if PyStr.is_empty p then "" else "_Part" +:+ p
  | None => ""
  end.

Definition generate_new_filename (db : database) (parsed : parsed_data)
    (original_filename : string) : option string :=
  match cusa parsed with
  | None => None
  | Some cusa =>
      if PyStr.is_empty cusa then None
      else
        match db !! cusa with
        | None => None
        | Some game_info =>
            let game_name := GameInfo.name game_info in
            let formatted_version := format_version (GameInfo.version game_info) in
            let new_filename :=
              game_name +:+ " [UPDATE " +:+ formatted_version +:+ "]["
                +:+ cusa +:+ "]" +:+ part_suffix parsed +:+ ".pkg" in
            Some (sanitize_filename new_filename)
        end
  end.

(** ** The rename pass *)

(** The [stats] dict of [process_directory]. *)
Module Stats.
Record t := {
  total_files : nat;
  processed : nat;
  renamed : nat;
  errors : nat;
  skipped : nat
}.
End Stats.

(** An entry of [self.renamed_files] and one of [self.errors]. *)
Record renamed_entry := { original : string; new : string; path : string }.
Record error_entry := { file : string; error : string }.

(** The fields of a [PS4FileRenamer] that the pass reads and writes. *)
Record renamer := {
  target_directory : string;
  game_database : database;
  renamed_files : list renamed_entry;
  errors : list error_entry
}.

(** The branch that the body of the loop in [process_directory] took for
    one file, named after the line it logs there. [WouldRename] is the
    success of [rename_file]: the file was renamed or, in a dry run, would
    be. *)
Inductive outcome :=
  | CouldNotParse (original : string)
  | CouldNotGenerate (original : string)
  | TargetExists (original new : string)
  | WouldRename (original new : string)
  | ErrorRenaming (original new error : string).

(** The document that [save_report] writes. *)
Module Report.
Record t := {
  statistics : Stats.t;
  dry_run : bool;
  database_size : nat;
  renamed_files : list renamed_entry;
  errors : list error_entry;
  target_directory : string
}.
End Report.

(** The target directory is the list of its entry names, without
    repetition, in the order in which the system enumerates them. *)
Abbreviation directory := (list string).

(** [target_directory.glob("*.pkg")] *)
Definition glob_pkg (fs : directory) : list string :=
  filter (λ name, PyStr.endswith ".pkg" name = true) fs.

Section Pass.

(** What the system answers to [rename(old, new)] for reasons other than a
    missing source (permissions and the like): [Some] message when it
    refuses. *)
Variable rename_error : string → string → option string.

(** [old_path.rename(new_path)] inside the directory: an existing target is
    replaced, as POSIX does; the renamed entry keeps its place in the
    enumeration. *)
Definition os_rename (fs : directory) (old new : string) : directory + string :=
  match rename_error old new with
  | Some e => inr e
  | None =>
      if bool_decide (old ∈ fs) then
        if bool_decide (old = new) then inl fs
        else inl ((λ x, if bool_decide (x = old) then new else x)
                    <$> filter (λ x, x ≠ new) fs)
      else inr ("[Errno 2] No such file or directory: '" +:+ old +:+ "' -> '"
                  +:+ new +:+ "'")
  end.

(** [rename_file]: the renamer and the directory after the call, and the
    returned flag. [new_path.exists()] is membership in the directory (the
    generated names hold no path separator). *)
Definition rename_file (self : renamer) (fs : directory)
    (old_name new_filename : string) (dry_run : bool)
    : renamer * directory * bool :=
  if bool_decide (new_filename ∈ fs) then (self, fs, false)
  else
    let recorded :=
      {| target_directory := target_directory self;
         game_database := game_database self;
         renamed_files := renamed_files self ++
           [{| original := old_name; new := new_filename;
               path := target_directory self |}];
         errors := errors self |} in
    if dry_run then (recorded, fs, true)
    else
      match os_rename fs old_name new_filename with
      | inl fs' => (recorded, fs', true)
      | inr e =>
          ({| target_directory := target_directory self;
              game_database := game_database self;
              renamed_files := renamed_files self;
              errors := errors self ++ [{| file := old_name; error := e |}] |},
           fs, false)
      end.

(** The branch of [rename_file] that runs on the same arguments. *)
Definition rename_outcome (self : renamer) (fs : directory)
    (old_name new_filename : string) (dry_run : bool) : outcome :=
  if bool_decide (new_filename ∈ fs) then TargetExists old_name new_filename
  else if dry_run then WouldRename old_name new_filename
  else
    match os_rename fs old_name new_filename with
    | inl _ => WouldRename old_name new_filename
    | inr e => ErrorRenaming old_name new_filename e
    end.

Definition bump_errors (stats : Stats.t) (also_processed : bool) : Stats.t :=
  {| Stats.total_files := Stats.total_files stats;
     Stats.processed := Stats.processed stats + (if also_processed then 1 else 0);
     Stats.renamed := Stats.renamed stats;
     Stats.errors := Stats.errors stats + 1;
     Stats.skipped := Stats.skipped stats |}.

Definition bump_renamed (stats : Stats.t) : Stats.t :=
  {| Stats.total_files := Stats.total_files stats;
     Stats.processed := Stats.processed stats + 1;
     Stats.renamed := Stats.renamed stats + 1;
     Stats.errors := Stats.errors stats;
     Stats.skipped := Stats.skipped stats |}.

(** The loop [for pkg_file in pkg_files] of [process_directory], with the
    branch taken for each file collected on the side. The handler around
    the body of the loop is never reached here: [parse_filename] and
    [generate_new_filename] return on every string, and [rename_file]
    handles the failure of the rename itself. *)
Fixpoint process_files (pkg_files : list string) (dry_run : bool)
    (self : renamer) (fs : directory) (stats : Stats.t)
    : renamer * directory * Stats.t * list outcome :=
  match pkg_files with
  | [] => (self, fs, stats, [])
  | pkg_file :: rest =>
      match parse_filename pkg_file with
      | None =>
          let '(self', fs', stats', trace) :=
            process_files rest dry_run self fs (bump_errors stats false) in
          (self', fs', stats', CouldNotParse pkg_file :: trace)
      | Some parsed =>
          match generate_new_filename (game_database self) parsed pkg_file with
          | None =>
              let '(self', fs', stats', trace) :=
                process_files rest dry_run self fs (bump_errors stats false) in
              (self', fs', stats', CouldNotGenerate pkg_file :: trace)
          | Some new_filename =>
              let o := rename_outcome self fs pkg_file new_filename dry_run in
              let '(self1, fs1, ok) :=
                rename_file self fs pkg_file new_filename dry_run in
              let stats1 :=
                if ok then bump_renamed stats else bump_errors stats true in
              let '(self', fs', stats', trace) :=
                process_files rest dry_run self1 fs1 stats1 in
              (self', fs', stats', o :: trace)
          end
      end
  end.

(** [process_directory]: the renamer and the directory after the pass, the
    returned [stats], and the branches taken, file by file. *)
Definition process_directory (self : renamer) (fs : directory) (dry_run : bool)
    : renamer * directory * Stats.t * list outcome :=
  let pkg_files := glob_pkg fs in
  process_files pkg_files dry_run self fs
    {| Stats.total_files := length pkg_files;
       Stats.processed := 0;
       Stats.renamed := 0;
       Stats.errors := 0;
       Stats.skipped := 0 |}.

End Pass.

(** [save_report]: the document it writes. *)
Definition save_report (self : renamer) (stats : Stats.t) (dry_run : bool) : Report.t :=
  {| Report.statistics := stats;
     Report.dry_run := dry_run;
     Report.database_size := size (game_database self);
     Report.renamed_files := renamed_files self;
     Report.errors := errors self;
     Report.target_directory := target_directory self |}.

(** ** Notions used to state the properties *)

(** The kinds of outcome: [WouldRename] is a rename, [ErrorRenaming] a
    failure of the rename call, and the three others leave the file as it
    is. *)
Inductive kind := KindRenamed | KindSkipped | KindFailed.

Definition kind_of (o : outcome) : kind :=
  match o with
  | WouldRename _ _ => KindRenamed
  | ErrorRenaming _ _ _ => KindFailed
  | CouldNotParse _ | CouldNotGenerate _ | TargetExists _ _ => KindSkipped
  end.

(** The generated target name carried by an outcome. *)
Definition target_of (o : outcome) : option string :=
  match o with
  | WouldRename _ t | TargetExists _ t | ErrorRenaming _ t _ => Some t
  | CouldNotParse _ | CouldNotGenerate _ => None
  end.

(** The name that a pass generates for a file: parse, then generate. *)
Definition new_name_for (db : database) (pkg_file : string) : option string :=
  parsed ← parse_filename pkg_file; generate_new_filename db parsed pkg_file.

(** The reset that [main] does before the committed pass. *)
Definition reset (self : renamer) : renamer :=
  {| target_directory := target_directory self;
     game_database := game_database self;
     renamed_files := [];
     errors := [] |}.


(** The record that one CSV row yields, if any. *)
Definition csv_record (csv_file : string) (row : gmap string string)
    : option (string * GameInfo.t) :=
  id_cell ← row !! "Title_ID";
  name_cell ← row !! "Title_Name";
  cusa ← search_cusa (PyStr.strip id_cell);
  Some (cusa, {| GameInfo.name := PyStr.strip name_cell;
                 GameInfo.version :=
                   Some (PyStr.strip (default "1.00" (row !! "Version")));
                 GameInfo.source := "CSV:" +:+ csv_file |}).

(** A row on which the loop raises. *)
Definition csv_row_raises (row : gmap string string) : bool :=
  bool_decide (row !! "Title_ID" = None ∨ row !! "Title_Name" = None).

(** An entry that passes the filter on [status] and [updates]. *)
Definition json_considered (result : Json.result) : bool :=
  bool_decide (Json.status result = Some (Json.Str "found"))
  && Json.has_updates result.

(** An entry on which the loop raises: considered, with a [null] id. *)
Definition json_result_raises (result : Json.result) : bool :=
  json_considered result && bool_decide (Json.title_id result = Some Json.Null).

(** The name that the JSON loader reads for an entry. *)
Definition json_name (result : Json.result) : Json.value :=
  default (default (Json.Str "") (Json.sony_game_name result))
          (Json.title_name result).

(** The record that one JSON entry yields, if any. *)
Definition json_record (json_file : string) (result : Json.result)
    : option (string * GameInfo.t) :=
  if json_considered result then
    match default (Json.Str "") (Json.title_id result), json_name result with
    | Json.Str title_id, Json.Str name =>
        if PyStr.is_empty name then None
        else
          cusa ← search_cusa title_id;
          Some (cusa, {| GameInfo.name := name;
                         GameInfo.version :=
                           match default (Json.Str "1.00") (Json.latest_version result) with
                           | Json.Str v => Some v
                           | Json.Null => None
                           end;
                         GameInfo.source := "JSON:" +:+ json_file |})
    | _, _ => None
    end
  else None.

(** The part of a list before the first element on which the loop raises. *)
Fixpoint before_raise {A} (raises : A → bool) (l : list A) : list A :=
  match l with
  | [] => []
  | x :: l' => if raises x then [] else x :: before_raise raises l'
  end.

(** A catalog file, as [main] feeds it to one of the two loaders. *)
Inductive source :=
  | CsvSource (file : string) (content : option Csv.data_frame)
  | JsonSource (file : string) (content : option Json.document).

Definition ingest (db : database) (s : source) : database :=
  match s with
  | CsvSource file content => (load_csv_data db file content).1
  | JsonSource file content => (load_json_data db file content).1
  end.

(** The records that a source yields, in the order of the file. *)
Definition records_of (s : source) : list (string * GameInfo.t) :=
  match s with
  | CsvSource file (Some df) =>
      if bool_decide ("Title_ID" ∈ Csv.columns df)
         && bool_decide ("Title_Name" ∈ Csv.columns df)
      then omap (csv_record file) (before_raise csv_row_raises (Csv.rows df))
      else []
  | JsonSource file (Some {| Json.results := Some results |}) =>
      omap (json_record file) (before_raise json_result_raises results)
  | _ => []
  end.

(** The canonical dotted form: one or two digits, a dot, two digits. *)
Definition canonical_dotted (s : string) : Prop :=
  ∃ major minor, s = major +:+ "." +:+ minor
    ∧ PyStr.all PyStr.isdigit major = true
    ∧ (String.length major = 1 ∨ String.length major = 2)
    ∧ PyStr.all PyStr.isdigit minor = true
    ∧ String.length minor = 2.

(** The number that a run of digits writes. *)
Fixpoint decimal_value (acc : Z) (s : string) : Z :=
  match s with
  | EmptyString => acc
  | String c s' => decimal_value (10 * acc + PyInt.digit c) s'
  end.

(** Every whitespace character is a single space that stands between two
    other characters. *)
Fixpoint single_spaced (s : string) : bool :=
  match s with
  | EmptyString => true
  | String c s' =>
      (if PyStr.isspace c
       then Ascii.eqb c " "
            && match s' with
               | String d _ => negb (PyStr.isspace d)
               | EmptyString => false
               end
       else true)
      && single_spaced s'
  end.

Definition starts_with_space (s : string) : bool :=
  match s with String c _ => PyStr.isspace c | EmptyString => false end.

Definition is_invalid (c : ascii) : bool := bool_decide (c ∈ invalid_chars).

(** [old] occurs in [s]. *)
Fixpoint occurs (old s : string) : bool :=
  match PyStr.strip_prefix old s with
  | Some _ => true
  | None =>
      match s with
      | EmptyString => false
      | String _ s' => occurs old s'
      end
  end.

(** Every whitespace character is a space that no whitespace follows; a
    last space is still allowed here. *)
Fixpoint runs_collapsed (s : string) : bool :=
  match s with
  | EmptyString => true
  | String c s' =>
      (if PyStr.isspace c
       then Ascii.eqb c " " && negb (starts_with_space s') else true)
      && runs_collapsed s'
  end.

Definition not_space (c : ascii) : bool := negb (PyStr.isspace c).

(** The parsed name with other version fields, as another file of the same
    game would give. *)
Definition with_versions (app v : option string) (parsed : parsed_data)
    : parsed_data :=
  {| publisher := publisher parsed;
     cusa := cusa parsed;
     title_code := title_code parsed;
     app_version := app;
     version := v;
     part := part parsed |}.

(** The renamer with other accumulators. *)
Definition with_lists (self : renamer) (r : list renamed_entry)
    (e : list error_entry) : renamer :=
  {| target_directory := target_directory self;
     game_database := game_database self;
     renamed_files := r;
     errors := e |}.


(** A system that refuses no rename. *)
Definition never_refuses (old new : string) : option string := None.

(** [self.game_database[cusa] = record] *)
Definition store (db : database) (entry : string * GameInfo.t) : database :=
  <[entry.1 := entry.2]> db.

(** The count that a loader returns for a source: zero when an exception
    reached its handler, else the number of records. *)
Definition count_of (s : source) : nat :=
  match s with
  | CsvSource _ (Some df) =>
      if existsb csv_row_raises (Csv.rows df) then 0 else length (records_of s)
  | JsonSource _ (Some {| Json.results := Some results |}) =>
      if existsb json_result_raises results then 0 else length (records_of s)
  | _ => 0
  end.

(** [main] loads every CSV file, then every JSON file. *)
Definition ingest_all (db : database) (sources : list source) : database :=
  foldl ingest db sources.

(** The entry that a failed rename appends to [self.errors]. *)
Definition error_entry_of (o : outcome) : option error_entry :=
  match o with
  | ErrorRenaming f _ e => Some {| file := f; error := e |}
  | _ => None
  end.

Definition is_rename (o : outcome) : bool :=
  match o with WouldRename _ _ => true | _ => false end.

(** The outcome [o] is one that the file [f] can have with the database
    [db]: a parse failure when [f] does not parse, a generation failure
    when it parses and no name is generated, and else one of the three
    outcomes of [rename_file], with the generated name. *)
Definition classified (db : database) (f : string) (o : outcome) : Prop :=
  match o with
  | CouldNotParse f' => f' = f ∧ parse_filename f = None
  | CouldNotGenerate f' =>
      f' = f ∧ is_Some (parse_filename f) ∧ new_name_for db f = None
  | TargetExists f' t | WouldRename f' t | ErrorRenaming f' t _ =>
      f' = f ∧ new_name_for db f = Some t
  end.

(** One step through a pattern written with binds: the matcher at the head
    succeeded, and its result is named. *)
Ltac bind_inv H :=
  match type of H with
  | mbind _ ?x = Some _ =>
      let E := fresh "E" in
      destruct x as [[? ?]|] eqn:E;
        [cbn beta iota delta [mbind option_bind] in H|discriminate H]
  | mbind _ ?x = Some _ =>
      let E := fresh "E" in
      destruct x as [?|] eqn:E;
        [cbn beta iota delta [mbind option_bind] in H|discriminate H]
  end.

(** ** The catalog export and the backup prompt *)

(** [s.lower()]: below code point 256 the letters with a lowercase are
    A..Z and 192..222 without 215, each 32 below its lowercase. *)
Definition lower_char (c : ascii) : ascii :=
  let n := N_of_ascii c in
  if ((65 <=? n) && (n <=? 90)
      || (192 <=? n) && (n <=? 222) && negb (n =? 215))%N
  then ascii_of_N (n + 32) else c.

Fixpoint lower (s : string) : string :=
  match s with
  | EmptyString => EmptyString
  | String c s' => String (lower_char c) (lower s')
  end.

(** [ask_for_backup], on the lines that [input()] returns one after the
    other: the answer, [None] when the input ends before a valid answer
    ([EOFError]), and the lines left unread. *)
Fixpoint ask_for_backup (inputs : list string) : option bool * list string :=
  match inputs with
  | [] => (None, [])
  | line :: rest =>
      let choice := lower (PyStr.strip line) in
      if bool_decide (choice ∈ ["y"; "yes"]) then (Some true, rest)
      else if bool_decide (choice ∈ ["n"; "no"; ""]) then (Some false, rest)
      else ask_for_backup rest
  end.

(** The module-level functions [load_csv_data] and
    [create_updates_structure]. A row of [csv.DictReader] maps a column
    name to a cell, which is [None] in a row that ends before the column. A
    dict is the list of its items in insertion order. *)
Module Catalog.

Abbreviation cell := (option string).

Record link := {
  filename : cell;
  url : cell;
  size : Z;
  sha1 : cell
}.

Record game := {
  title_name : cell;
  version : cell;
  download_links : list link
}.

Abbreviation games := (list (cell * game)).

#[global] Instance link_eq_dec : EqDecision link.
Proof. solve_decision. Defined.

(** [games_data[title_id]['download_links'].append(entry)] *)
Fixpoint append_link (title_id : cell) (entry : link) (games_data : games)
    : games :=
  match games_data with
  | [] => []
  | (k, g) :: rest =>
      if decide (k = title_id)
      then (k, {| title_name := title_name g;
                  version := version g;
                  download_links := download_links g ++ [entry] |}) :: rest
      else (k, g) :: append_link title_id entry rest
  end.

(** [int(row['Size_Bytes']) if row['Size_Bytes'] else 0] *)
Definition size_of (c : cell) : option Z :=
  match c with
  | Some s => if PyStr.is_empty s then Some 0%Z else PyInt.int s
  | None => Some 0%Z
  end.

(** The entry appended for a row; [None] when building it raises
    ([KeyError] on a missing column, [ValueError] from [int]). *)
Definition link_of (row : gmap string cell) : option link :=
  fn ← row !! "Filename";
  u ← row !! "Download_URL";
  sz ← row !! "Size_Bytes";
  n ← size_of sz;
  h ← row !! "SHA1_Hash";
  Some {| filename := fn; url := u; size := n; sha1 := h |}.

(** The body of the loop over the rows; [None] when it raises. *)
Definition add_row (row : gmap string cell) (games_data : games)
    : option games :=
  title_id ← row !! "Title_ID";
  games_data ←
    (if bool_decide (title_id ∈ games_data.*1) then Some games_data
     else
       name ← row !! "Title_Name";
       v ← row !! "Version";
       Some (games_data ++
               [(title_id, {| title_name := name; version := v;
                              download_links := [] |})]));
  entry ← link_of row;
  Some (append_link title_id entry games_data).

Fixpoint load_rows (rows : list (gmap string cell)) (games_data : games)
    : option games :=
  match rows with
  | [] => Some games_data
  | row :: rest => games_data ← add_row row games_data; load_rows rest games_data
  end.

(** [load_csv_data(csv_file)]: [content] is [None] when the file cannot be
    opened; the result is [None] when the function raises (nothing is
    handled in it). *)
Definition load_csv_data (content : option (list (gmap string cell)))
    : option games :=
  rows ← content; load_rows rows [].

(** A value of [updates]: the name and the dict [versions], which holds the
    one version of the game with its files. *)
Record update := {
  name : cell;
  versions : list (cell * list link)
}.

(** [create_updates_structure(games_data)], for a dict (no key twice). *)
Definition create_updates_structure (games_data : games)
    : list (cell * update) :=
  (λ '(title_id, game_info),
     (title_id, {| name := title_name game_info;
                   versions := [(version game_info,
                                 download_links game_info)] |}))
    <$> games_data.

(** The rows of a title, in the order of the file. *)
Definition rows_of (title_id : cell) (rows : list (gmap string cell))
    : list (gmap string cell) :=
  filter (λ row, row !! "Title_ID" = Some title_id) rows.

(** [games_data.get(title_id)] *)
Fixpoint get (title_id : cell) (games_data : games) : option game :=
  match games_data with
  | [] => None
  | (k, g) :: rest => if decide (k = title_id) then Some g else get title_id rest
  end.

(** The row yields the entry: building the entry does not raise. *)
Definition listed (row : gmap string cell) (entry : link) : Prop :=
  link_of row = Some entry.

(** The number of files listed in a dict of games. *)
Definition total_links (games_data : games) : nat :=
  sum_list ((λ kg, length (download_links kg.2)) <$> games_data).

End Catalog.

(** ** More notions used to state the properties *)

(** A character that [sanitize_filename] keeps as it is. *)
Definition plain (c : ascii) : bool :=
  negb (is_invalid c) && negb (PyStr.isspace c).

(** The file name of the full format and the one of the simple format,
    composed from their fields. *)
Definition full_name (pub_letters pub_digits id_letters id_digits suffix
    title app v : string) (part_no : option string) : string :=
  pub_letters +:+ pub_digits +:+ "-" +:+ id_letters +:+ id_digits +:+ "_"
    +:+ suffix +:+ "-" +:+ title +:+ "-A" +:+ app +:+ "-V" +:+ v
    +:+ match part_no with Some p => "_" +:+ p | None => "" end
    +:+ ".pkg".

Definition simple_name (id_letters id_digits title v : string) : string :=
  id_letters +:+ id_digits +:+ "-" +:+ title +:+ "-V" +:+ v +:+ ".pkg".

(** A non-empty run of characters of a class. *)
Definition run_of (p : ascii → bool) (s : string) : Prop :=
  s ≠ "" ∧ PyStr.all p s = true.

(** The entry that a successful rename appends to [self.renamed_files]. *)
Definition renamed_entry_of (dir : string) (o : outcome) : option renamed_entry :=
  match o with
  | WouldRename f t => Some {| original := f; new := t; path := dir |}
  | _ => None
  end.

(** An answer that [ask_for_backup] takes for yes, resp. for no. *)
Definition says_yes (line : string) : Prop :=
  lower (PyStr.strip line) ∈ ["y"; "yes"].

Definition says_no (line : string) : Prop :=
  lower (PyStr.strip line) ∈ ["n"; "no"; ""].

(** A character that is not the dot with which the extension starts. *)
Definition no_dot (c : ascii) : bool := negb (Ascii.eqb c ".").

(** Where a run ends: at the end of the string, or before a character that
    is not of the class. *)
Definition stops (p : ascii → bool) (r : string) : Prop :=
  match r with String c _ => p c = false | EmptyString => True end.

(** * Properties *)

(** ** Strings *)

Section string_facts.
Implicit Types (p q : ascii → bool) (s : string) (c : ascii).

Lemma all_filter p s : PyStr.all p (PyStr.filter p s) = true.
Proof.
  induction s as [|c s IH]; simpl; [done|].
  destruct (p c) eqn:Hc; simpl; [by rewrite Hc|done].
Qed.

Lemma filter_all_id p s : PyStr.all p s = true → PyStr.filter p s = s.
Proof.
  induction s as [|c s IH]; simpl; [done|].
  intros [Hc Hs]%andb_true_iff. rewrite Hc. by rewrite IH.
Qed.

Lemma filter_ext p q s :
  (∀ c, p c = q c) → PyStr.filter p s = PyStr.filter q s.
Proof.
  intros Hpq. induction s as [|c s IH]; simpl; [done|].
  by rewrite Hpq, IH.
Qed.

Lemma filter_filter p q s :
  PyStr.filter p (PyStr.filter q s) = PyStr.filter (λ c, q c && p c) s.
Proof.
  induction s as [|c s IH]; simpl; [done|].
  destruct (q c) eqn:Hq; simpl; [|done].
  destruct (p c); by rewrite IH.
Qed.

Lemma all_filter_mono p q s :
  PyStr.all q s = true → PyStr.all q (PyStr.filter p s) = true.
Proof.
  induction s as [|c s IH]; simpl; [done|].
  intros [Hc Hs]%andb_true_iff. destruct (p c); simpl; [rewrite Hc|]; auto.
Qed.

Lemma all_ltrim p q s :
  PyStr.all q s = true → PyStr.all q (PyStr.ltrim p s) = true.
Proof.
  induction s as [|c s IH]; simpl; [done|].
  intros [Hc Hs]%andb_true_iff. destruct (p c); simpl; [auto|].
  by rewrite Hc, Hs.
Qed.

Lemma all_rtrim p q s :
  PyStr.all q s = true → PyStr.all q (PyStr.rtrim p s) = true.
Proof.
  induction s as [|c s IH]; simpl; [done|].
  intros [Hc Hs]%andb_true_iff.
  destruct (PyStr.is_empty (PyStr.rtrim p s) && p c); simpl; [done|].
  by rewrite Hc, IH.
Qed.

Lemma all_sub_spaces q b s :
  q " "%char = true →
  PyStr.all q s = true → PyStr.all q (PyStr.sub_spaces b s) = true.
Proof.
  intros Hsp. revert b. induction s as [|c s IH]; intros b; simpl; [done|].
  intros [Hc Hs]%andb_true_iff.
  destruct (PyStr.isspace c); [destruct b|]; simpl; rewrite ?Hsp, ?Hc; simpl; auto.
Qed.

(** A first character survives [rtrim] unless nothing does. *)
Lemma rtrim_head p s :
  PyStr.rtrim p s = EmptyString
  ∨ ∃ c r r', s = String c r ∧ PyStr.rtrim p s = String c r'.
Proof.
  destruct s as [|c s]; simpl; [by left|].
  destruct (PyStr.is_empty (PyStr.rtrim p s) && p c); [by left|].
  right. by eexists _, _, _.
Qed.

Lemma rtrim_idemp p s :
  PyStr.rtrim p (PyStr.rtrim p s) = PyStr.rtrim p s.
Proof.
  induction s as [|c s IH]; simpl; [done|].
  destruct (PyStr.is_empty (PyStr.rtrim p s) && p c) eqn:E; simpl; [done|].
  by rewrite IH, E.
Qed.

Lemma ltrim_id s :
  starts_with_space s = false → PyStr.ltrim PyStr.isspace s = s.
Proof. destruct s as [|c s]; simpl; [done|]. by intros ->. Qed.

Lemma ltrim_no_space s :
  starts_with_space (PyStr.ltrim PyStr.isspace s) = false.
Proof.
  induction s as [|c s IH]; simpl; [done|].
  destruct (PyStr.isspace c) eqn:Hc; simpl; [done|by rewrite Hc].
Qed.

Lemma rtrim_no_space p s :
  starts_with_space s = false → starts_with_space (PyStr.rtrim p s) = false.
Proof.
  intros Hs. destruct (rtrim_head p s) as [->|(c & r & r' & -> & ->)]; done.
Qed.

End string_facts.

(** ** Whitespace runs *)

Lemma isspace_space : PyStr.isspace " " = true.
Proof. reflexivity. Qed.

Lemma sub_spaces_collapsed s b :
  runs_collapsed (PyStr.sub_spaces b s) = true
  ∧ (b = true → starts_with_space (PyStr.sub_spaces b s) = false).
Proof.
  revert b. induction s as [|c s IH]; intros b; simpl; [done|].
  destruct (PyStr.isspace c) eqn:Hc.
  - destruct b; simpl.
    + apply IH.
    + rewrite isspace_space. simpl.
      destruct (IH true) as [-> ->]; done.
  - simpl. rewrite Hc. split; [|done]. apply IH.
Qed.

Lemma sub_spaces_id s :
  runs_collapsed s = true →
  PyStr.sub_spaces false s = s
  ∧ (starts_with_space s = false → PyStr.sub_spaces true s = s).
Proof.
  induction s as [|c s IH]; simpl; [done|].
  intros [Hc Hs]%andb_true_iff. destruct (IH Hs) as [IH1 IH2].
  destruct (PyStr.isspace c) eqn:E.
  - apply andb_true_iff in Hc as [Hc Hn].
    apply Ascii.eqb_eq in Hc as ->.
    apply negb_true_iff in Hn. split; [|done].
    by rewrite IH2.
  - by rewrite IH1.
Qed.

Lemma collapsed_ltrim p s :
  runs_collapsed s = true → runs_collapsed (PyStr.ltrim p s) = true.
Proof.
  induction s as [|c s IH]; simpl; [done|].
  intros H. destruct (p c); [|done].
  apply andb_true_iff in H as [_ H]. auto.
Qed.

Lemma collapsed_rtrim s :
  runs_collapsed s = true →
  single_spaced (PyStr.rtrim PyStr.isspace s) = true.
Proof.
  induction s as [|c s IH]; simpl; [done|].
  intros [Hc Hs]%andb_true_iff. specialize (IH Hs).
  destruct (PyStr.is_empty (PyStr.rtrim PyStr.isspace s) && PyStr.isspace c)
    eqn:E; simpl; [done|].
  rewrite IH, andb_true_r.
  destruct (PyStr.isspace c) eqn:Hsp; [|done].
  apply andb_true_iff in Hc as [-> Hn]. apply negb_true_iff in Hn.
  rewrite andb_true_r in E. simpl.
  destruct (rtrim_head PyStr.isspace s) as [Hr|(d & r & r' & -> & Hr)];
    rewrite Hr in *; [done|].
  simpl in Hn. by rewrite Hn.
Qed.

Lemma single_spaced_collapsed s :
  single_spaced s = true → runs_collapsed s = true.
Proof.
  induction s as [|c s IH]; simpl; [done|].
  intros [Hc Hs]%andb_true_iff. rewrite (IH Hs), andb_true_r.
  destruct (PyStr.isspace c); [|done].
  apply andb_true_iff in Hc as [-> Hn]. by destruct s.
Qed.

Lemma single_spaced_rtrim s :
  single_spaced s = true → PyStr.rtrim PyStr.isspace s = s.
Proof.
  induction s as [|c s IH]; simpl; [done|].
  intros [Hc Hs]%andb_true_iff. rewrite (IH Hs).
  destruct (PyStr.isspace c); [|by rewrite andb_false_r].
  apply andb_true_iff in Hc as [_ Hn]. by destruct s.
Qed.




(** ** [sanitize_filename] *)

Lemma remove_chars_filter chars s :
  foldl (λ name char, PyStr.remove_char char name) s chars
  = PyStr.filter (λ c, negb (bool_decide (c ∈ chars))) s.
Proof.
  revert s. induction chars as [|ch chars IH]; intros s; simpl.
  - symmetry. apply filter_all_id. by induction s.
  - rewrite IH. unfold PyStr.remove_char. rewrite filter_filter.
    apply filter_ext. intros c.
    destruct (Ascii.eqb c ch) eqn:E; simpl.
    + apply Ascii.eqb_eq in E as ->.
      rewrite bool_decide_eq_true_2; [done|]. apply elem_of_cons; by left.
    + apply Ascii.eqb_neq in E. f_equal. apply bool_decide_ext.
      rewrite elem_of_cons. split; [by right|by intros [?|?]].
Qed.

Lemma sanitize_filename_unfold x :
  sanitize_filename x
  = PyStr.strip (PyStr.sub_spaces false
      (PyStr.filter (λ c, negb (is_invalid c)) x)).
Proof. unfold sanitize_filename. by rewrite remove_chars_filter. Qed.


(** ** [format_version] *)

Lemma length_take n s :
  n ≤ String.length s → String.length (PyStr.take n s) = n.
Proof.
  revert s. induction n as [|n IH]; intros [|c s]; simpl; try done; try lia.
  intros H. rewrite IH; lia.
Qed.

Lemma all_take p n s :
  PyStr.all p s = true → PyStr.all p (PyStr.take n s) = true.
Proof.
  revert s. induction n as [|n IH]; intros [|c s]; simpl; try done.
  intros [-> Hs]%andb_true_iff. simpl. auto.
Qed.

Lemma rtrim_none p s :
  PyStr.all (λ c, negb (p c)) s = true → PyStr.rtrim p s = s.
Proof.
  induction s as [|c s IH]; simpl; [done|].
  intros [Hc Hs]%andb_true_iff. apply negb_true_iff in Hc.
  by rewrite Hc, andb_false_r, IH.
Qed.

Lemma ltrim_none p s :
  PyStr.all (λ c, negb (p c)) s = true → PyStr.ltrim p s = s.
Proof.
  destruct s as [|c s]; simpl; [done|].
  intros [Hc _]%andb_true_iff. apply negb_true_iff in Hc. by rewrite Hc.
Qed.

Lemma all_impl (p q : ascii → bool) s :
  (∀ c, p c = true → q c = true) →
  PyStr.all p s = true → PyStr.all q s = true.
Proof.
  intros Hpq. induction s as [|c s IH]; simpl; [done|].
  intros [Hc Hs]%andb_true_iff. by rewrite (Hpq _ Hc), IH.
Qed.

(** A digit is no whitespace for [int], no sign and no dot. *)
Lemma isdigit_plain c :
  PyStr.isdigit c = true →
  PyInt.isspace c = false ∧ Ascii.eqb c "+" = false
  ∧ Ascii.eqb c "-" = false ∧ Ascii.eqb c "." = false.
Proof.
  unfold PyStr.isdigit, PyInt.isspace. intros H.
  assert (Hne : ∀ d, N_of_ascii d ≠ N_of_ascii c → Ascii.eqb c d = false).
  { intros d Hd. apply Ascii.eqb_neq. by intros ->. }
  apply andb_true_iff in H as [H1%N.leb_le H2%N.leb_le].
  split_and!; [|apply Hne; simpl; lia..].
  repeat (apply orb_false_iff; split); try apply andb_false_iff;
    rewrite ?N.leb_gt, ?N.eqb_neq; lia.
Qed.

Lemma digits_decimal s acc b :
  PyStr.all PyStr.isdigit s = true → s ≠ "" ∨ b = true →
  PyInt.digits acc b s = Some (decimal_value acc s).
Proof.
  revert acc b. induction s as [|c s IH]; intros acc b; simpl.
  - by intros _ [?| ->].
  - intros [Hc Hs]%andb_true_iff _. rewrite Hc. apply IH; auto.
Qed.

(** [int] of a run of digits is the number it writes. *)
Lemma int_digits s :
  PyStr.all PyStr.isdigit s = true → s ≠ "" →
  PyInt.int s = Some (decimal_value 0 s).
Proof.
  intros Hs Hne. unfold PyInt.int.
  assert (Hsp : PyStr.all (λ c, negb (PyInt.isspace c)) s = true).
  { eapply all_impl; [|done]. intros c Hc.
    by destruct (isdigit_plain c Hc) as (-> & _). }
  rewrite (ltrim_none _ _ Hsp), (rtrim_none _ _ Hsp).
  destruct s as [|c r]; [done|].
  pose proof Hs as [Hc _]%andb_true_iff.
  destruct (isdigit_plain c Hc) as (_ & -> & -> & _).
  by apply digits_decimal; [|left].
Qed.

Lemma dotted_tail_not_digits s :
  PyStr.all PyStr.isdigit s = true → dotted_tail s = false.
Proof.
  destruct s as [|d [|m1 [|m2 r]]]; simpl; try done.
  intros [Hd _]%andb_true_iff.
  by destruct (isdigit_plain d Hd) as (_ & _ & _ & ->).
Qed.

Lemma matches_dotted_not_digits s :
  PyStr.all PyStr.isdigit s = true → matches_dotted s = false.
Proof.
  destruct s as [|a r]; simpl; [done|].
  intros [-> Hr]%andb_true_iff. simpl.
  rewrite (dotted_tail_not_digits _ Hr). simpl.
  destruct r as [|b r']; [done|].
  apply andb_true_iff in Hr as [-> Hr']. simpl.
  by apply dotted_tail_not_digits.
Qed.


Lemma is_empty_length s : PyStr.is_empty s = true ↔ String.length s = 0.
Proof. by destruct s. Qed.



(** ** [parse_filename] *)

Lemma span_spec p s m r :
  PyStr.span p s = (m, r) → PyStr.all p m = true ∧ s = m +:+ r.
Proof.
  revert m r. induction s as [|c s IH]; intros m r; simpl.
  - by intros [= <- <-].
  - destruct (p c) eqn:Hc.
    + destruct (PyStr.span p s) as [m' r'] eqn:E. intros [= <- <-].
      destruct (IH _ _ eq_refl) as [Hm ->]. simpl. by rewrite Hc.
    + by intros [= <- <-].
Qed.

Lemma many1_spec p s m r :
  Re.many1 p s = Some (m, r) →
  PyStr.all p m = true ∧ m ≠ "" ∧ s = m +:+ r.
Proof.
  unfold Re.many1. destruct (PyStr.span p s) as [m' r'] eqn:E.
  destruct (span_spec _ _ _ _ E) as [Hm ->].
  destruct m'; simpl; [done|]. by intros [= <- <-].
Qed.

Lemma exactly_spec n p s m r :
  Re.exactly n p s = Some (m, r) →
  PyStr.all p m = true ∧ String.length m = n ∧ s = m +:+ r.
Proof.
  revert s m r. induction n as [|n IH]; intros s m r; simpl.
  - by intros [= <- <-].
  - destruct s as [|c s]; [done|]. destruct (p c) eqn:Hc; [|done].
    destruct (Re.exactly n p s) as [[m' r']|] eqn:E; simpl; [|done].
    intros [= <- <-]. destruct (IH _ _ _ E) as (Hm & Hlen & ->).
    simpl. by rewrite Hc, Hlen.
Qed.

Lemma exactly_app n p m r :
  PyStr.all p m = true → String.length m = n →
  Re.exactly n p (m +:+ r) = Some (m, r).
Proof.
  revert m. induction n as [|n IH]; intros [|c m]; simpl; try done.
  intros [Hc Hm]%andb_true_iff [= Hlen]. rewrite Hc.
  by rewrite (IH _ Hm Hlen).
Qed.

Lemma is_identifier_app letters ds :
  PyStr.all PyStr.isupper letters = true → String.length letters = 4 →
  PyStr.all PyStr.isdigit ds = true → ds ≠ "" →
  is_identifier (letters +:+ ds) = true.
Proof.
  intros Hl Hlen Hd Hne. unfold is_identifier.
  rewrite (exactly_app 4 _ _ _ Hl Hlen). rewrite Hd. by destruct ds.
Qed.

(** The groups of a full-format match: five of them, the second one an
    identifier. *)
Lemma match_full_groups s groups r :
  match_full s = Some (groups, r) →
  length groups = 5
  ∧ ∃ id, group groups 1 = Some id ∧ is_identifier id = true.
Proof.
  unfold match_full. intros H.
  repeat bind_inv H.
  injection H as <- <-. split; [done|].
  eexists; split; [done|].
  match goal with
  | H4 : Re.exactly 4 _ _ = Some (?c1, _),
    Hd : Re.many1 _ _ = Some (?c2, _) |- is_identifier (?c1 +:+ ?c2) = true =>
      destruct (exactly_spec _ _ _ _ _ H4) as (? & ? & _);
      destruct (many1_spec _ _ _ _ Hd) as (? & ? & _)
  end.
  by apply is_identifier_app.
Qed.

Lemma pattern_standard_groups s groups :
  pattern_standard s = Some groups →
  length groups = 6
  ∧ ∃ id, group groups 1 = Some id ∧ is_identifier id = true.
Proof.
  unfold pattern_standard.
  destruct (match_full s) as [[g r]|] eqn:E; simpl; [|done].
  intros [= <-]. destruct (match_full_groups _ _ _ E) as (Hlen & id & Hid & Hok).
  rewrite length_app, Hlen. split; [done|]. exists id. split; [|done].
  destruct g as [|? [|? ?]]; done.
Qed.

Lemma pattern_alternative_groups s groups :
  pattern_alternative s = Some groups →
  length groups = 5
  ∧ ∃ id, group groups 1 = Some id ∧ is_identifier id = true.
Proof.
  unfold pattern_alternative.
  destruct (match_full s) as [[g r]|] eqn:E; simpl; [|done].
  intros [= <-]. by eapply match_full_groups.
Qed.

Lemma pattern_simple_groups s groups :
  pattern_simple s = Some groups →
  length groups = 3
  ∧ ∃ id, group groups 0 = Some id ∧ is_identifier id = true.
Proof.
  unfold pattern_simple. intros H.
  repeat bind_inv H.
  injection H as <-. split; [done|].
  eexists; split; [done|].
  match goal with
  | H4 : Re.exactly 4 _ _ = Some (?c1, _),
    Hd : Re.many1 _ _ = Some (?c2, _) |- is_identifier (?c1 +:+ ?c2) = true =>
      destruct (exactly_spec _ _ _ _ _ H4) as (? & ? & _);
      destruct (many1_spec _ _ _ _ Hd) as (? & ? & _)
  end.
  by apply is_identifier_app.
Qed.

(** The result of the loop over the three patterns, by the first pattern
    that matches. *)
Lemma parse_with_patterns base_name :
  parse_with patterns base_name
  = match pattern_standard base_name with
    | Some groups => Some (full_format groups)
    | None =>
        match pattern_alternative base_name with
        | Some groups => Some (full_format groups)
        | None => simple_format <$> pattern_simple base_name
        end
    end.
Proof.
  unfold patterns. simpl.
  destruct (pattern_standard base_name) as [g|] eqn:E1.
  { destruct (pattern_standard_groups _ _ E1) as [-> _]. done. }
  destruct (pattern_alternative base_name) as [g|] eqn:E2.
  { destruct (pattern_alternative_groups _ _ E2) as [-> _]. done. }
  destruct (pattern_simple base_name) as [g|] eqn:E3; [|done].
  destruct (pattern_simple_groups _ _ E3) as [-> _]. done.
Qed.

(** A successful parse holds an identifier. *)
Lemma parse_filename_identifier filename parsed :
  parse_filename filename = Some parsed →
  ∃ id, cusa parsed = Some id ∧ is_identifier id = true.
Proof.
  unfold parse_filename. rewrite parse_with_patterns.
  destruct (pattern_standard _) as [g|] eqn:E1.
  { intros [= <-]. by destruct (pattern_standard_groups _ _ E1) as [_ ?]. }
  destruct (pattern_alternative _) as [g|] eqn:E2.
  { intros [= <-]. by destruct (pattern_alternative_groups _ _ E2) as [_ ?]. }
  destruct (pattern_simple _) as [g|] eqn:E3; simpl; [|done].
  intros [= <-]. by destruct (pattern_simple_groups _ _ E3) as [_ ?].
Qed.

Lemma is_identifier_nonempty id :
  is_identifier id = true → PyStr.is_empty id = false.
Proof. by destruct id. Qed.

(** Removing [.pkg] from a name that holds it only as its extension. The
    first character of the extension does not come back in it, so no
    occurrence can straddle the end of the base name. *)
Lemma strip_prefix_ext_app (p0 p1 p2 p3 : ascii) s :
  p1 ≠ p0 → p2 ≠ p0 → p3 ≠ p0 →
  let ext := String p0 (String p1 (String p2 (String p3 ""))) in
  s ≠ "" → PyStr.strip_prefix ext s = None →
  PyStr.strip_prefix ext (s +:+ ext) = None.
Proof.
  intros H1 H2 H3 ext Hne H. subst ext.
  destruct s as [|a [|b [|c [|d s]]]]; simpl in *; try done;
    repeat match goal with
    | |- context [Ascii.eqb ?x ?y] =>
        destruct (Ascii.eqb_spec x y); subst; try done
    | H : context [Ascii.eqb ?x ?y] |- _ =>
        destruct (Ascii.eqb_spec x y); subst; try done
    end.
Qed.

Lemma strip_prefix_pkg_app s :
  s ≠ "" → PyStr.strip_prefix ".pkg" s = None →
  PyStr.strip_prefix ".pkg" (s +:+ ".pkg") = None.
Proof. by apply (strip_prefix_ext_app "." "p" "k" "g"). Qed.

Lemma remove_extension base :
  occurs ".pkg" base = false →
  PyStr.remove_sub ".pkg" (base +:+ ".pkg") = base.
Proof.
  unfold PyStr.remove_sub. induction base as [|c base IH]; [done|].
  intros H. cbn [occurs] in H.
  destruct (PyStr.strip_prefix ".pkg" (String c base)) eqn:E; [done|].
  change (String c base +:+ ".pkg") with (String c (base +:+ ".pkg")).
  cbn [PyStr.remove_sub_go].
  change (String c (base +:+ ".pkg")) with (String c base +:+ ".pkg").
  rewrite strip_prefix_pkg_app by done. by rewrite IH.
Qed.

(** What holds of [parse_filename] on every filename: when [.pkg] occurs in
    it only as its extension, the patterns are tried on the name without
    the extension; the result is built from the groups of the first of the
    three patterns, in their order, that matches; when none matches the
    result is [None], and nothing is raised since [parse_filename] is a
    function on every string; and a successful parse holds an identifier of
    four uppercase letters followed by digits. *)
Theorem parse_filename_first_match (filename : string) :
  let base_name := PyStr.remove_sub ".pkg" filename in
  (∀ base, filename = base +:+ ".pkg" → occurs ".pkg" base = false →
     base_name = base)
  ∧ parse_filename filename
    = match pattern_standard base_name with
      | Some groups => Some (full_format groups)
      | None =>
          match pattern_alternative base_name with
          | Some groups => Some (full_format groups)
          | None => simple_format <$> pattern_simple base_name
          end
      end
  ∧ (parse_filename filename = None
     ↔ ∀ pattern, pattern ∈ patterns → pattern base_name = None)
  ∧ (∀ parsed, parse_filename filename = Some parsed →
       ∃ id, cusa parsed = Some id ∧ is_identifier id = true).
Proof.
  intros base_name. split_and!.
  - intros base -> Hbase. by apply remove_extension.
  - apply parse_with_patterns.
  - unfold parse_filename. fold base_name. rewrite parse_with_patterns.
    unfold patterns. split.
    + intros H pattern Hin.
      destruct (pattern_standard base_name) eqn:E1; [done|].
      destruct (pattern_alternative base_name) eqn:E2; [done|].
      destruct (pattern_simple base_name) eqn:E3; [done|].
      apply elem_of_cons in Hin as [->|Hin]; [done|].
      apply elem_of_cons in Hin as [->|Hin]; [done|].
      by apply list_elem_of_singleton in Hin as ->.
    + intros H.
      rewrite (H pattern_standard), (H pattern_alternative),
        (H pattern_simple); [done|repeat constructor..].
  - apply parse_filename_identifier.
Qed.

Lemma parse_filename_first_match_witness :
  PyStr.remove_sub ".pkg" "CUSA00012-TITLEID-V0283.pkg"
    = "CUSA00012-TITLEID-V0283"
  ∧ ∃ id, cusa (simple_format
                  [Some "CUSA00012"; Some "TITLEID"; Some "0283"]) = Some id
          ∧ is_identifier id = true.
Proof.
  pose proof (parse_filename_first_match "CUSA00012-TITLEID-V0283.pkg")
    as (Hbase & _ & _ & Hid).
  split.
  - apply (Hbase "CUSA00012-TITLEID-V0283"); reflexivity.
  - apply Hid. reflexivity.
Defined.

(** C8. The file name [CUSA00012-AB.pkgCD-V0283.pkg] ends with the package
    extension. Without that extension it matches none of the patterns,
    since [.pkg] stands inside its title code. [parse_filename] removes
    every occurrence of [.pkg], not the extension alone, and returns a
    parse, with the title code [ABCD]. *)
Theorem inner_extension_removed :
  let filename := "CUSA00012-AB.pkgCD-V0283.pkg" in
  filename = "CUSA00012-AB.pkgCD-V0283" +:+ ".pkg"
  ∧ parse_with patterns "CUSA00012-AB.pkgCD-V0283" = None
  ∧ PyStr.remove_sub ".pkg" filename = "CUSA00012-ABCD-V0283"
  ∧ parse_filename filename
    = Some (simple_format [Some "CUSA00012"; Some "ABCD"; Some "0283"]).
Proof. by vm_compute. Qed.

(** ** [generate_new_filename] *)

Lemma generate_new_filename_found db parsed filename id info :
  cusa parsed = Some id → PyStr.is_empty id = false →
  db !! id = Some info →
  generate_new_filename db parsed filename
  = Some (sanitize_filename
            (GameInfo.name info +:+ " [UPDATE "
               +:+ format_version (GameInfo.version info) +:+ "]["
               +:+ id +:+ "]" +:+ part_suffix parsed +:+ ".pkg")).
Proof.
  intros Hid Hne Hdb. unfold generate_new_filename.
  by rewrite Hid, Hne, Hdb.
Qed.

Lemma generate_new_filename_missing db parsed filename id :
  cusa parsed = Some id → db !! id = None →
  generate_new_filename db parsed filename = None.
Proof.
  intros Hid Hdb. unfold generate_new_filename. rewrite Hid, Hdb.
  by destruct (PyStr.is_empty id).
Qed.

(** C5. For a parsed filename, whose identifier is [id]: when the database
    has a record for [id], the generated name is the sanitized composition
    of the record's name, the record's version formatted by
    [format_version], [id] and the part suffix; the version fields of the
    filename play no part in it; when the database has no record for [id]
    nothing is generated; and with the record
    [Example Game] / [0283] for [CUSA00012] and no part, the generated name
    is [Example Game [UPDATE 2.83][CUSA00012].pkg]. *)
Theorem generate_uses_catalog_version (db : database) (filename : string)
    (parsed : parsed_data) :
  parse_filename filename = Some parsed →
  ∃ id, cusa parsed = Some id
    ∧ (∀ info, db !! id = Some info →
         generate_new_filename db parsed filename
         = Some (sanitize_filename
                   (GameInfo.name info +:+ " [UPDATE "
                      +:+ format_version (GameInfo.version info) +:+ "]["
                      +:+ id +:+ "]" +:+ part_suffix parsed +:+ ".pkg")))
    ∧ (∀ app v,
         generate_new_filename db (with_versions app v parsed) filename
         = generate_new_filename db parsed filename)
    ∧ (db !! id = None → generate_new_filename db parsed filename = None)
    ∧ (∀ source, id = "CUSA00012" → part parsed = None →
         db !! id = Some {| GameInfo.name := "Example Game";
                            GameInfo.version := Some "0283";
                            GameInfo.source := source |} →
         generate_new_filename db parsed filename
         = Some "Example Game [UPDATE 2.83][CUSA00012].pkg").
Proof.
  intros Hparse.
  destruct (parse_filename_identifier _ _ Hparse) as (id & Hid & Hok).
  apply is_identifier_nonempty in Hok.
  exists id. split_and!; [done|..].
  - intros info Hdb. by apply generate_new_filename_found.
  - done.
  - by apply generate_new_filename_missing.
  - intros source -> Hpart Hdb.
    rewrite (generate_new_filename_found _ _ _ _ _ Hid Hok Hdb).
    unfold part_suffix. rewrite Hpart. reflexivity.
Qed.

Lemma generate_uses_catalog_version_witness :
  ∃ id, Some "CUSA00012" = Some id
    ∧ generate_new_filename
        {[ "CUSA00012" := {| GameInfo.name := "Example Game";
                             GameInfo.version := Some "0283";
                             GameInfo.source := "CSV:titles.csv" |} ]}
        (simple_format [Some "CUSA00012"; Some "TITLEID"; Some "0100"])
        "CUSA00012-TITLEID-V0100.pkg"
      = Some "Example Game [UPDATE 2.83][CUSA00012].pkg".
Proof.
  destruct (generate_uses_catalog_version
              {[ "CUSA00012" := {| GameInfo.name := "Example Game";
                                   GameInfo.version := Some "0283";
                                   GameInfo.source := "CSV:titles.csv" |} ]}
              "CUSA00012-TITLEID-V0100.pkg"
              (simple_format [Some "CUSA00012"; Some "TITLEID"; Some "0100"])
              eq_refl) as (id & Hid & _ & _ & _ & Hex).
  exists id. split; [exact Hid|].
  injection Hid as <-.
  apply (Hex "CSV:titles.csv"); reflexivity.
Defined.

(** ** The loaders *)

Lemma strip_prefix_spec p s r :
  PyStr.strip_prefix p s = Some r → s = p +:+ r.
Proof.
  revert s. induction p as [|a p IH]; intros [|b s]; simpl; try done.
  - by intros [= <-].
  - by intros [= <-].
  - destruct (Ascii.eqb_spec a b) as [->|]; [|done].
    intros H. by rewrite (IH _ H).
Qed.

Lemma strip_prefix_app p r : PyStr.strip_prefix p (p +:+ r) = Some r.
Proof.
  induction p as [|a p IH]; simpl; [by destruct r|].
  by rewrite Ascii.eqb_refl.
Qed.

Lemma append_assoc (a b c : string) : (a +:+ b) +:+ c = a +:+ (b +:+ c).
Proof.
  induction a as [|x a IH]; [done|].
  change (String x ((a +:+ b) +:+ c) = String x (a +:+ b +:+ c)).
  by f_equal.
Qed.


Lemma match_cusa_spec s c :
  match_cusa s = Some c →
  ∃ ds post, s = c +:+ post ∧ c = "CUSA" +:+ ds
    ∧ ds ≠ "" ∧ PyStr.all PyStr.isdigit ds = true.
Proof.
  unfold match_cusa. intros H. repeat bind_inv H. injection H as <-.
  apply strip_prefix_spec in E as ->.
  apply many1_spec in E0 as (Hds & Hne & ->).
  eexists _, _. split_and!; [|done..]. by rewrite <- append_assoc.
Qed.

Lemma search_cusa_spec s c :
  search_cusa s = Some c →
  ∃ pre ds post, s = pre +:+ c +:+ post ∧ c = "CUSA" +:+ ds
    ∧ ds ≠ "" ∧ PyStr.all PyStr.isdigit ds = true.
Proof.
  induction s as [|a s IH]; cbn [search_cusa].
  - destruct (match_cusa "") eqn:E; [|done]. intros [= ->].
    destruct (match_cusa_spec _ _ E) as (ds & post & ? & ? & ? & ?).
    by exists "", ds, post.
  - destruct (match_cusa (String a s)) eqn:E.
    + intros [= ->].
      destruct (match_cusa_spec _ _ E) as (ds & post & ? & ? & ? & ?).
      by exists "", ds, post.
    + intros (pre & ds & post & -> & ? & ? & ?)%IH.
      by exists (String a pre), ds, post.
Qed.



Lemma csv_row_raises_cells row :
  csv_row_raises row
  = match row !! "Title_ID", row !! "Title_Name" with
    | Some _, Some _ => false
    | _, _ => true
    end.
Proof.
  unfold csv_row_raises.
  destruct (row !! "Title_ID"), (row !! "Title_Name");
    first [apply bool_decide_eq_false_2; by intros [?|?]
          |apply bool_decide_eq_true_2; by (left + right)].
Qed.

(** The loop of [load_csv_data] stores the records of the rows, in their
    order, up to the first row on which it raises. *)
Lemma load_csv_rows_spec csv_file rows db n :
  load_csv_rows csv_file rows db n
  = (foldl store db
       (omap (csv_record csv_file) (before_raise csv_row_raises rows)),
     if existsb csv_row_raises rows then None
     else Some (n + length (omap (csv_record csv_file) rows))).
Proof.
  revert db n. induction rows as [|row rows IH]; intros db n.
  { simpl. by rewrite Nat.add_0_r. }
  cbn [load_csv_rows before_raise existsb]. rewrite csv_row_raises_cells.
  destruct (row !! "Title_ID") as [id_cell|] eqn:Hid; [|done].
  destruct (row !! "Title_Name") as [name_cell|] eqn:Hname; [|done].
  pose proof (eq_refl (csv_record csv_file row)) as Hrec.
  unfold csv_record at 2 in Hrec. rewrite Hid, Hname in Hrec.
  cbn [mbind option_bind] in Hrec.
  cbn [omap list_omap orb].
  destruct (search_cusa (PyStr.strip id_cell)) as [c|];
    cbn [mbind option_bind] in Hrec; rewrite !Hrec, IH.
  - cbn [foldl length]. destruct (existsb _ _); [done|].
    by rewrite Nat.add_succ_r.
  - done.
Qed.

(** The same for the loop of [load_json_data]. *)
Lemma load_json_results_spec json_file results db n :
  load_json_results json_file results db n
  = (foldl store db
       (omap (json_record json_file) (before_raise json_result_raises results)),
     if existsb json_result_raises results then None
     else Some (n + length (omap (json_record json_file) results))).
Proof.
  revert db n. induction results as [|result results IH]; intros db n.
  { simpl. by rewrite Nat.add_0_r. }
  cbn [load_json_results before_raise existsb].
  pose proof (eq_refl (json_record json_file result)) as Hrec.
  pose proof (eq_refl (json_result_raises result)) as Hraise.
  unfold json_record at 2 in Hrec.
  unfold json_result_raises at 2 in Hraise.
  unfold json_considered, json_name in Hrec, Hraise.
  destruct (bool_decide (Json.status result = Some (Json.Str "found"))
            && Json.has_updates result).
  2:{ cbn [andb] in Hraise. rewrite Hraise.
      cbn [omap list_omap orb]. by rewrite Hrec, IH. }
  cbn [andb] in Hraise.
  destruct (Json.title_id result) as [[|title_id]|]; cbn [default from_option id] in *.
  - by rewrite Hraise.
  - rewrite bool_decide_eq_false_2 in Hraise by done. rewrite Hraise.
    cbn [omap list_omap orb].
    destruct (search_cusa title_id) as [c|],
      (default (default (Json.Str "") (Json.sony_game_name result))
         (Json.title_name result)) as [|name];
      try destruct (PyStr.is_empty name);
      cbn [mbind option_bind negb] in *; rewrite Hrec, IH; try done.
    cbn [foldl length]. destruct (existsb _ _); [done|].
    by rewrite Nat.add_succ_r.
  - rewrite bool_decide_eq_false_2 in Hraise by done. rewrite Hraise.
    cbn [omap list_omap orb].
    change (search_cusa "") with (@None string) in *.
    destruct (default (default (Json.Str "") (Json.sony_game_name result))
                (Json.title_name result)) as [|name];
      try destruct (PyStr.is_empty name);
      cbn [mbind option_bind negb] in *; by rewrite Hrec, IH.
Qed.

Lemma before_raise_none {A} (raises : A → bool) l :
  existsb raises l = false → before_raise raises l = l.
Proof.
  induction l as [|x l IH]; simpl; [done|].
  intros [-> H]%orb_false_iff. by rewrite IH.
Qed.

(** Each loader stores the records of its source and returns their count. *)
Lemma load_csv_data_spec db file content :
  load_csv_data db file content
  = (foldl store db (records_of (CsvSource file content)),
     count_of (CsvSource file content)).
Proof.
  unfold load_csv_data, count_of, records_of.
  destruct content as [df|]; [|done].
  destruct (bool_decide _ && bool_decide _) eqn:Hcols.
  - rewrite load_csv_rows_spec.
    destruct (existsb _ _) eqn:E; [done|]. by rewrite before_raise_none.
  - simpl. by destruct (existsb _ _).
Qed.

Lemma load_json_data_spec db file content :
  load_json_data db file content
  = (foldl store db (records_of (JsonSource file content)),
     count_of (JsonSource file content)).
Proof.
  unfold load_json_data, count_of, records_of.
  destruct content as [[[results|]]|]; [|done..]. simpl.
  rewrite load_json_results_spec.
  destruct (existsb _ _) eqn:E; [done|]. by rewrite before_raise_none.
Qed.

Lemma ingest_spec db s : ingest db s = foldl store db (records_of s).
Proof.
  destruct s; simpl;
    [by rewrite load_csv_data_spec|by rewrite load_json_data_spec].
Qed.

Lemma ingest_all_spec db sources :
  ingest_all db sources = foldl store db (mjoin (records_of <$> sources)).
Proof.
  unfold ingest_all. revert db.
  induction sources as [|s sources IH]; intros db; simpl; [done|].
  by rewrite foldl_app, IH, ingest_spec.
Qed.

(** *** The database as a map *)

Lemma lookup_store_other db (entries : list (string * GameInfo.t)) c :
  c ∉ entries.*1 → foldl store db entries !! c = db !! c.
Proof.
  revert db. induction entries as [|[k v] entries IH]; intros db; simpl;
    [done|].
  intros [Hk Hc]%not_elem_of_cons. rewrite IH by done.
  unfold store. simpl. by rewrite lookup_insert_ne.
Qed.

Lemma lookup_store_last db (entries : list (string * GameInfo.t)) c info pre post :
  entries = pre ++ (c, info) :: post → c ∉ post.*1 →
  foldl store db entries !! c = Some info.
Proof.
  intros -> Hpost. rewrite foldl_app. simpl.
  rewrite lookup_store_other by done. unfold store. simpl.
  apply lookup_insert_eq.
Qed.

Lemma dom_store db (entries : list (string * GameInfo.t)) :
  dom (foldl store db entries) = dom db ∪ list_to_set entries.*1.
Proof.
  revert db. induction entries as [|[k v] entries IH]; intros db; simpl.
  - by rewrite (right_id_L ∅ (∪)).
  - rewrite IH. unfold store. simpl.
    by rewrite dom_insert_L, (comm_L (∪) {[k]} (dom db)), (assoc_L (∪)).
Qed.

(** The size of a database filled from nothing is the number of distinct
    identifiers stored into it. *)
Lemma size_store (entries : list (string * GameInfo.t)) :
  size (foldl store ∅ entries) = length (remove_dups entries.*1).
Proof.
  rewrite <- size_dom, dom_store, dom_empty_L, (left_id_L ∅ (∪)).
  rewrite <- (size_list_to_set (C:=gset string) (remove_dups entries.*1))
    by apply NoDup_remove_dups.
  f_equal. apply set_eq. intros x.
  by rewrite !elem_of_list_to_set, elem_of_remove_dups.
Qed.







(** C7. The database is a map, so it holds at most one record per
    identifier. After two sources were loaded one after the other, the
    record of an identifier that the second source yields is the last one
    that this source yields for it, whole, whatever the first source
    stored. The size of a database filled from nothing, which is the
    [database_size] of the report, is the number of distinct identifiers
    among the records that the sources yield, and loading the same sources
    once more leaves it as it is. *)
Theorem last_write_wins (sources : list source) (db0 : database)
    (first second : source) (c : string) (info : GameInfo.t)
    (pre post : list (string * GameInfo.t))
    (self : renamer) (stats : Stats.t) (dry_run : bool) :
  (records_of second = pre ++ (c, info) :: post → c ∉ post.*1 →
     ingest (ingest db0 first) second !! c = Some info)
  ∧ size (ingest_all ∅ sources)
    = length (remove_dups (mjoin (records_of <$> sources)).*1)
  ∧ size (ingest_all ∅ (sources ++ sources)) = size (ingest_all ∅ sources)
  ∧ (game_database self = ingest_all ∅ sources →
       Report.database_size (save_report self stats dry_run)
       = length (remove_dups (mjoin (records_of <$> sources)).*1)).
Proof.
  assert (Hsize : size (ingest_all ∅ sources)
            = length (remove_dups (mjoin (records_of <$> sources)).*1)).
  { rewrite ingest_all_spec. apply size_store. }
  split_and!.
  - intros Hrec Hpost. rewrite (ingest_spec _ second).
    by eapply lookup_store_last.
  - done.
  - rewrite <- !size_dom, !ingest_all_spec, !dom_store. f_equal.
    rewrite fmap_app, join_app, fmap_app, list_to_set_app_L.
    by rewrite (idemp_L (∪)).
  - intros Hdb. unfold save_report. simpl. by rewrite Hdb.
Qed.

Lemma last_write_wins_witness :
  let csv := CsvSource "titles.csv"
    (Some {| Csv.columns := ["Title_ID"; "Title_Name"; "Version"];
             Csv.rows := [ {[ "Title_ID" := "CUSA00012";
                              "Title_Name" := "Example Game";
                              "Version" := "0283" ]} ] |}) in
  let json := JsonSource "titles.json"
    (Some {| Json.results := Some
        [ {| Json.status := Some (Json.Str "found");
             Json.has_updates := true;
             Json.title_id := Some (Json.Str "CUSA00012_00");
             Json.title_name := Some (Json.Str "Example Game Deluxe");
             Json.sony_game_name := None;
             Json.latest_version := Some (Json.Str "01.10") |} ] |}) in
  ingest (ingest ∅ csv) json !! "CUSA00012"
  = Some {| GameInfo.name := "Example Game Deluxe";
            GameInfo.version := Some "01.10";
            GameInfo.source := "JSON:titles.json" |}.
Proof.
  intros csv json.
  apply (proj1 (last_write_wins [] ∅ csv json "CUSA00012"
                  {| GameInfo.name := "Example Game Deluxe";
                     GameInfo.version := Some "01.10";
                     GameInfo.source := "JSON:titles.json" |}
                  [] []
                  {| target_directory := ""; game_database := ∅;
                     renamed_files := []; errors := [] |}
                  {| Stats.total_files := 0; Stats.processed := 0;
                     Stats.renamed := 0; Stats.errors := 0;
                     Stats.skipped := 0 |} true)).
  - reflexivity.
  - apply not_elem_of_nil.
Defined.

(** ** The rename pass *)

Section pass_facts.
Variable rename_error : string → string → option string.

Lemma rename_file_database self fs old new dry_run :
  game_database (rename_file rename_error self fs old new dry_run).1.1
  = game_database self.
Proof.
  unfold rename_file. case_bool_decide; [done|].
  destruct dry_run; [done|]. by destruct (os_rename _ _ _ _).
Qed.

(** [rename_file] succeeds exactly in the branch [WouldRename]. *)
Lemma rename_file_outcome self fs old new dry_run :
  (rename_file rename_error self fs old new dry_run).2 = true
  ↔ rename_outcome rename_error self fs old new dry_run = WouldRename old new.
Proof.
  unfold rename_file, rename_outcome. case_bool_decide; [done|].
  destruct dry_run; [done|]. by destruct (os_rename _ _ _ _).
Qed.

(** A dry run leaves the directory as it is. *)
Lemma rename_file_dry self fs old new :
  (rename_file rename_error self fs old new true).1.2 = fs.
Proof. unfold rename_file. by case_bool_decide. Qed.

Lemma process_files_dry files self fs stats :
  (process_files rename_error files true self fs stats).1.1.2 = fs.
Proof.
  revert self fs stats. induction files as [|f files IH]; intros self fs stats;
    simpl; [done|].
  destruct (parse_filename f) as [parsed|].
  - destruct (generate_new_filename _ _ _) as [new|].
    + pose proof (rename_file_dry self fs f new) as Hfs.
      destruct (rename_file _ _ _ _ _ _) as [[self1 fs1] ok]. simpl in Hfs.
      subst fs1. specialize (IH self1 fs (if ok then bump_renamed stats
                                           else bump_errors stats true)).
      by destruct (process_files _ _ _ _ _ _) as [[[? ?] ?] ?].
    + specialize (IH self fs (bump_errors stats false)).
      by destruct (process_files _ _ _ _ _ _) as [[[? ?] ?] ?].
  - specialize (IH self fs (bump_errors stats false)).
    by destruct (process_files _ _ _ _ _ _) as [[[? ?] ?] ?].
Qed.

Lemma process_files_database files dry_run self fs stats :
  game_database (process_files rename_error files dry_run self fs stats).1.1.1
  = game_database self.
Proof.
  revert self fs stats. induction files as [|f files IH]; intros self fs stats;
    simpl; [done|].
  destruct (parse_filename f) as [parsed|].
  - destruct (generate_new_filename _ _ _) as [new|].
    + pose proof (rename_file_database self fs f new dry_run) as Hdb.
      destruct (rename_file _ _ _ _ _ _) as [[self1 fs1] ok]. simpl in Hdb.
      specialize (IH self1 fs1 (if ok then bump_renamed stats
                                else bump_errors stats true)).
      destruct (process_files _ _ _ _ _ _) as [[[? ?] ?] ?]. simpl in *.
      congruence.
    + specialize (IH self fs (bump_errors stats false)).
      by destruct (process_files _ _ _ _ _ _) as [[[? ?] ?] ?].
  - specialize (IH self fs (bump_errors stats false)).
    by destruct (process_files _ _ _ _ _ _) as [[[? ?] ?] ?].
Qed.

(** *** The accumulators *)

Lemma rename_file_frame self fs old new dry_run r0 e0 :
  rename_file rename_error
    (with_lists self (r0 ++ renamed_files self) (e0 ++ errors self))
    fs old new dry_run
  = let '(self', fs', ok) := rename_file rename_error self fs old new dry_run in
    (with_lists self' (r0 ++ renamed_files self') (e0 ++ errors self'), fs', ok).
Proof.
  unfold rename_file, with_lists. simpl. case_bool_decide; [done|].
  destruct dry_run; simpl; [by rewrite (assoc_L (++))|].
  destruct (os_rename _ _ _ _); simpl; by rewrite (assoc_L (++)).
Qed.

Lemma rename_outcome_frame self self' fs old new dry_run :
  rename_outcome rename_error self fs old new dry_run
  = rename_outcome rename_error self' fs old new dry_run.
Proof. done. Qed.

Lemma process_files_frame files dry_run self fs stats r0 e0 :
  process_files rename_error files dry_run
    (with_lists self (r0 ++ renamed_files self) (e0 ++ errors self)) fs stats
  = let '(self', fs', stats', trace) :=
      process_files rename_error files dry_run self fs stats in
    (with_lists self' (r0 ++ renamed_files self') (e0 ++ errors self'),
     fs', stats', trace).
Proof.
  revert self fs stats. induction files as [|f files IH]; intros self fs stats;
    simpl; [done|].
  destruct (parse_filename f) as [parsed|].
  - destruct (generate_new_filename _ _ _) as [new|].
    + rewrite rename_file_frame.
      rewrite (rename_outcome_frame _ self).
      destruct (rename_file _ self _ _ _ _) as [[self1 fs1] ok].
      rewrite IH.
      by destruct (process_files _ _ _ self1 _ _) as [[[? ?] ?] ?].
    + rewrite IH.
      by destruct (process_files _ _ _ self _ _) as [[[? ?] ?] ?].
  - rewrite IH.
    by destruct (process_files _ _ _ self _ _) as [[[? ?] ?] ?].
Qed.

Lemma with_lists_reset self :
  with_lists (reset self) (renamed_files self ++ renamed_files (reset self))
    (errors self ++ errors (reset self)) = self.
Proof. destruct self. unfold with_lists. simpl. by rewrite !app_nil_r. Qed.

(** A pass appends to the accumulators what it would write into empty
    ones. *)
Lemma process_directory_frame self fs dry_run :
  process_directory rename_error self fs dry_run
  = let '(self', fs', stats', trace) :=
      process_directory rename_error (reset self) fs dry_run in
    (with_lists self' (renamed_files self ++ renamed_files self')
       (errors self ++ errors self'), fs', stats', trace).
Proof.
  unfold process_directory.
  rewrite <- (with_lists_reset self) at 1. apply process_files_frame.
Qed.

End pass_facts.

(** *** Dry run against committed pass *)







(** C10. A pass only appends to [renamed_files] and [errors]: after a pass
    they are what they were before it, followed by what the same pass
    writes into a renamer that was reset. So for two passes in a row, with
    no reset between them, the report saved after the second pass holds the
    entries present at the start, then those of the first pass, then those
    of the second pass. *)
Theorem accumulators_never_reset (rename_error : string → string → option string)
    (self : renamer) (fs : directory) (dry1 dry2 : bool) :
  let '(self1, fs1, _, _) := process_directory rename_error self fs dry1 in
  let '(first, _, _, _) := process_directory rename_error (reset self) fs dry1 in
  let '(self2, _, stats2, _) := process_directory rename_error self1 fs1 dry2 in
  let '(second, _, _, _) :=
    process_directory rename_error (reset self1) fs1 dry2 in
  renamed_files self1 = renamed_files self ++ renamed_files first
  ∧ errors self1 = errors self ++ errors first
  ∧ Report.renamed_files (save_report self2 stats2 dry2)
    = renamed_files self ++ renamed_files first ++ renamed_files second
  ∧ Report.errors (save_report self2 stats2 dry2)
    = errors self ++ errors first ++ errors second.
Proof.
  rewrite (process_directory_frame rename_error self fs dry1).
  destruct (process_directory rename_error (reset self) fs dry1)
    as [[[first fs1] stats1] trace1].
  set (self1 := with_lists first _ _).
  rewrite (process_directory_frame rename_error self1 fs1 dry2).
  destruct (process_directory rename_error (reset self1) fs1 dry2)
    as [[[second fs2] stats2] trace2].
  simpl. by rewrite <- !(assoc_L (++)).
Qed.



(** The counter [skipped] is never written by a pass. *)
Lemma process_files_skipped rename_error files dry_run self fs stats :
  Stats.skipped (process_files rename_error files dry_run self fs stats).1.2
  = Stats.skipped stats.
Proof.
  revert self fs stats. induction files as [|f files IH]; intros self fs stats;
    simpl; [done|].
  destruct (parse_filename f) as [parsed|].
  - destruct (generate_new_filename _ _ _) as [new|].
    + destruct (rename_file _ _ _ _ _ _) as [[self1 fs1] ok].
      specialize (IH self1 fs1 (if ok then bump_renamed stats
                                else bump_errors stats true)).
      destruct (process_files _ _ _ _ _ _) as [[[? ?] ?] ?]. simpl in *.
      rewrite IH. by destruct ok.
    + specialize (IH self fs (bump_errors stats false)).
      by destruct (process_files _ _ _ _ _ _) as [[[? ?] ?] ?].
  - specialize (IH self fs (bump_errors stats false)).
    by destruct (process_files _ _ _ _ _ _) as [[[? ?] ?] ?].
Qed.

(** *** What the counters count *)

Lemma rename_file_errors rename_error self fs old target dry_run :
  let '(self', _, ok) := rename_file rename_error self fs old target dry_run in
  let o := rename_outcome rename_error self fs old target dry_run in
  errors self' = errors self ++ option_list (error_entry_of o)
  ∧ ok = is_rename o
  ∧ (o = TargetExists old target ∨ o = WouldRename old target
     ∨ ∃ e, o = ErrorRenaming old target e).
Proof.
  unfold rename_file, rename_outcome. case_bool_decide.
  { simpl. rewrite app_nil_r. eauto. }
  destruct dry_run.
  { simpl. rewrite app_nil_r. eauto. }
  destruct (os_rename _ _ _ _) as [fs'|e]; simpl.
  - rewrite app_nil_r. eauto.
  - eauto 6.
Qed.

Lemma process_files_counts rename_error files dry_run self fs stats :
  let '(self', _, stats', trace) :=
    process_files rename_error files dry_run self fs stats in
  Forall2 (classified (game_database self)) files trace
  ∧ Stats.errors stats'
    = Stats.errors stats + length (List.filter (λ o, negb (is_rename o)) trace)
  ∧ Stats.renamed stats'
    = Stats.renamed stats + length (List.filter is_rename trace)
  ∧ errors self' = errors self ++ omap error_entry_of trace.
Proof.
  revert self fs stats. induction files as [|f files IH]; intros self fs stats.
  { simpl. rewrite app_nil_r. split_and!; [constructor|lia|lia|done]. }
  cbn [process_files].
  destruct (parse_filename f) as [parsed|] eqn:Hparse.
  - destruct (generate_new_filename _ parsed f) as [target|] eqn:Hgen.
    + pose proof (rename_file_errors rename_error self fs f target dry_run)
        as Hrename.
      pose proof (rename_file_database rename_error self fs f target dry_run)
        as Hdb.
      destruct (rename_file _ _ _ _ _ _) as [[self1 fs1] ok].
      simpl in Hdb. destruct Hrename as (Herr & -> & Ho).
      set (o := rename_outcome rename_error self fs f target dry_run) in *.
      clearbody o.
      specialize (IH self1 fs1 (if is_rename o then bump_renamed stats
                                else bump_errors stats true)).
      destruct (process_files _ _ _ _ _ _) as [[[self' fs'] stats'] trace].
      destruct IH as (Hall & He & Hr & Herrs). rewrite Hdb in Hall.
      assert (Hclass : classified (game_database self) f o).
      { destruct Ho as [->|[->|[e ->]]]; simpl; unfold new_name_for;
          rewrite Hparse; by simpl. }
      split_and!.
      * by constructor.
      * rewrite He. simpl. destruct (is_rename o); simpl; lia.
      * rewrite Hr. simpl. destruct (is_rename o); simpl; lia.
      * rewrite Herrs, Herr, <- (assoc_L (++)). simpl.
        by destruct (error_entry_of o).
    + specialize (IH self fs (bump_errors stats false)).
      destruct (process_files _ _ _ _ _ _) as [[[self' fs'] stats'] trace].
      destruct IH as (Hall & He & Hr & Herrs).
      split_and!.
      * constructor; [|done]. simpl. unfold new_name_for.
        rewrite Hparse. simpl. split_and!; [done|by eexists|done].
      * rewrite He. simpl. lia.
      * rewrite Hr. simpl. lia.
      * done.
  - specialize (IH self fs (bump_errors stats false)).
    destruct (process_files _ _ _ _ _ _) as [[[self' fs'] stats'] trace].
    destruct IH as (Hall & He & Hr & Herrs).
    split_and!.
    + constructor; [|done]. by split.
    + rewrite He. simpl. lia.
    + rewrite Hr. simpl. lia.
    + done.
Qed.

(** C3, as the code has it. In a pass every file gets the outcome that its
    name and the database decide; a parse failure and a metadata miss leave
    the pass running and are counted, with the collisions and the failed
    rename calls, in the [errors] count of the statistics, which is the
    number of files that were not renamed; and only a failure of the rename
    call itself adds an entry to the error list of the report. *)
Theorem failures_counted_as_errors
    (rename_error : string → string → option string)
    (self : renamer) (fs : directory) (dry_run : bool) :
  let '(self', _, stats, trace) :=
    process_directory rename_error self fs dry_run in
  Forall2 (classified (game_database self)) (glob_pkg fs) trace
  ∧ Stats.errors stats = length (List.filter (λ o, negb (is_rename o)) trace)
  ∧ Stats.renamed stats = length (List.filter is_rename trace)
  ∧ Report.errors (save_report self' stats dry_run)
    = errors self ++ omap error_entry_of trace.
Proof.
  unfold process_directory.
  pose proof (process_files_counts rename_error (glob_pkg fs) dry_run self fs
                {| Stats.total_files := length (glob_pkg fs);
                   Stats.processed := 0; Stats.renamed := 0;
                   Stats.errors := 0; Stats.skipped := 0 |}) as H.
  destruct (process_files _ _ _ _ _ _) as [[[self' fs'] stats'] trace].
  destruct H as (Hall & He & Hr & Herrs). by split_and!.
Qed.

(** C3, as stated, fails: on a directory with a file that does not parse
    and a file whose identifier has no record, a committed pass counts both
    under [errors] and leaves [skipped] at zero, although no rename was
    attempted and the list [errors] of the renamer stays empty. *)
Lemma skips_counted_as_errors :
  let self := {| target_directory := "/games"; game_database := ∅;
                 renamed_files := []; errors := [] |} in
  let fs := ["notes.pkg"; "CUSA00012-TITLEID-V0283.pkg"] in
  let '(self', fs', stats, trace) :=
    process_directory never_refuses self fs false in
  trace = [CouldNotParse "notes.pkg";
           CouldNotGenerate "CUSA00012-TITLEID-V0283.pkg"]
  ∧ Stats.errors stats = 2
  ∧ Stats.skipped stats = 0
  ∧ errors self' = []
  ∧ fs' = fs.
Proof. vm_compute. by split_and!. Qed.




(** * Further properties *)

(** ** More on strings *)

Lemma append_nil_r (s : string) : s +:+ "" = s.
Proof.
  induction s as [|c s IH]; [done|].
  change (String c (s +:+ "") = String c s). by f_equal.
Qed.

Lemma append_cons (c : ascii) (a b : string) :
  String c a +:+ b = String c (a +:+ b).
Proof. done. Qed.

Lemma length_append (a b : string) :
  String.length (a +:+ b) = String.length a + String.length b.
Proof.
  induction a as [|c a IH]; [done|].
  rewrite append_cons. simpl. by rewrite IH.
Qed.

Lemma all_append p (a b : string) :
  PyStr.all p (a +:+ b) = PyStr.all p a && PyStr.all p b.
Proof.
  induction a as [|c a IH]; [done|].
  rewrite append_cons. simpl. by rewrite IH, andb_assoc.
Qed.

Lemma append_inv_head (a b b' : string) : a +:+ b = a +:+ b' → b = b'.
Proof.
  induction a as [|c a IH]; [done|].
  rewrite !append_cons. intros [= H]. auto.
Qed.

Lemma filter_append p (a b : string) :
  PyStr.filter p (a +:+ b) = PyStr.filter p a +:+ PyStr.filter p b.
Proof.
  induction a as [|c a IH]; [done|].
  rewrite append_cons. simpl. destruct (p c); [|done].
  by rewrite append_cons, IH.
Qed.

Lemma sub_spaces_none b (t : string) :
  PyStr.all not_space t = true → PyStr.sub_spaces b t = t.
Proof.
  revert b. induction t as [|c t IH]; intros b; simpl; [done|].
  unfold not_space at 1. intros [Hc Ht]%andb_true_iff.
  apply negb_true_iff in Hc. by rewrite Hc, IH.
Qed.

Lemma sub_spaces_append b (a t : string) :
  PyStr.all not_space t = true →
  PyStr.sub_spaces b (a +:+ t) = PyStr.sub_spaces b a +:+ t.
Proof.
  intros Ht. revert b. induction a as [|c a IH]; intros b.
  - by apply sub_spaces_none.
  - rewrite append_cons. cbn [PyStr.sub_spaces].
    destruct (PyStr.isspace c); [destruct b|]; by rewrite ?append_cons, IH.
Qed.

Lemma ltrim_append p (a t : string) :
  PyStr.ltrim p t = t → PyStr.ltrim p (a +:+ t) = PyStr.ltrim p a +:+ t.
Proof.
  intros Ht. induction a as [|c a IH]; [done|].
  rewrite append_cons. cbn [PyStr.ltrim]. by destruct (p c).
Qed.

Lemma rtrim_append p (a t : string) :
  PyStr.rtrim p t = t → t ≠ "" → PyStr.rtrim p (a +:+ t) = a +:+ t.
Proof.
  intros Ht Hne. induction a as [|c a IH]; [done|].
  rewrite append_cons. cbn [PyStr.rtrim]. rewrite IH.
  by destruct a, t.
Qed.

Lemma plain_not_space (t : string) :
  PyStr.all plain t = true → PyStr.all not_space t = true.
Proof. apply all_impl. by intros c [_ ?]%andb_true_iff. Qed.

Lemma plain_valid (t : string) :
  PyStr.all plain t = true → PyStr.all (λ c, negb (is_invalid c)) t = true.
Proof. apply all_impl. by intros c [? _]%andb_true_iff. Qed.

(** [sanitize_filename] leaves a plain, non-empty end of its argument as it
    is, and what it makes of the part before does not depend on that end. *)
Lemma sanitize_filename_append (a t : string) :
  PyStr.all plain t = true → t ≠ "" →
  sanitize_filename (a +:+ t)
  = PyStr.ltrim PyStr.isspace
      (PyStr.sub_spaces false (PyStr.filter (λ c, negb (is_invalid c)) a))
    +:+ t.
Proof.
  intros Ht Hne. rewrite sanitize_filename_unfold. unfold PyStr.strip.
  pose proof (plain_not_space t Ht) as Hsp.
  assert (Hnone : PyStr.all (λ c, negb (PyStr.isspace c)) t = true) by done.
  rewrite filter_append, (filter_all_id _ t (plain_valid t Ht)).
  rewrite sub_spaces_append by done.
  rewrite ltrim_append by by apply ltrim_none.
  apply rtrim_append; [by apply rtrim_none|done].
Qed.

(** Where a character occurs for the last time, a string splits in one way
    only. *)
Lemma split_at_last (c : ascii) (a a' b b' : string) :
  PyStr.all (λ x, negb (Ascii.eqb x c)) b = true →
  PyStr.all (λ x, negb (Ascii.eqb x c)) b' = true →
  a +:+ String c b = a' +:+ String c b' → a = a' ∧ b = b'.
Proof.
  intros Hb Hb'. revert a'. induction a as [|x a IH]; intros [|x' a'].
  - by intros [= ->].
  - rewrite append_cons. intros [= <- ->].
    rewrite all_append in Hb. simpl in Hb. rewrite Ascii.eqb_refl in Hb.
    by rewrite andb_false_r in Hb.
  - rewrite append_cons. intros [= -> <-].
    rewrite all_append in Hb'. simpl in Hb'. rewrite Ascii.eqb_refl in Hb'.
    by rewrite andb_false_r in Hb'.
  - rewrite !append_cons. intros [= -> H].
    by destruct (IH _ H) as [-> ->].
Qed.

Lemma endswith_append (a t : string) : PyStr.endswith t (a +:+ t) = true.
Proof.
  unfold PyStr.endswith. rewrite length_append.
  replace (String.length a + String.length t - String.length t)
    with (String.length a) by lia.
  apply andb_true_iff. split; [|apply Nat.leb_le; lia].
  apply String.eqb_eq. induction a as [|c a IH]; [by destruct t|done].
Qed.

(** ** The shape of a generated name *)

(** Letters and digits are plain, and are no bracket and no dot. *)
Lemma letter_or_digit_plain c :
  PyStr.isupper_or_digit c = true →
  plain c = true
  ∧ negb (Ascii.eqb c "[") = true ∧ negb (Ascii.eqb c "]") = true
  ∧ negb (Ascii.eqb c ".") = true.
Proof. destruct c as [[] [] [] [] [] [] [] []]; vm_compute; by intros. Qed.

Lemma is_identifier_letters_digits id :
  is_identifier id = true → PyStr.all PyStr.isupper_or_digit id = true.
Proof.
  unfold is_identifier.
  destruct (Re.exactly 4 PyStr.isupper id) as [[l r]|] eqn:E; [|done].
  apply exactly_spec in E as (Hl & _ & ->).
  intros [_ Hr]%andb_true_iff. rewrite all_append. apply andb_true_iff. split.
  - eapply all_impl; [|done]. intros c Hc. unfold PyStr.isupper_or_digit.
    by rewrite Hc.
  - eapply all_impl; [|done]. intros c Hc. unfold PyStr.isupper_or_digit.
    by rewrite Hc, orb_true_r.
Qed.

Lemma opt_part_digits s p :
  Re.opt_part s = Some p → run_of PyStr.isdigit p.
Proof.
  unfold Re.opt_part. intros H. repeat bind_inv H. injection H as <-.
  apply many1_spec in E0 as (? & ? & _). by split.
Qed.

(** The part of a parsed name, when it has one, is a run of digits. *)
Lemma parse_filename_part filename parsed :
  parse_filename filename = Some parsed →
  part parsed = None ∨ ∃ p, part parsed = Some p ∧ run_of PyStr.isdigit p.
Proof.
  unfold parse_filename. rewrite parse_with_patterns.
  destruct (pattern_standard _) as [g|] eqn:E1.
  { intros [= <-]. unfold pattern_standard in E1.
    destruct (match_full _) as [[g' r]|] eqn:E; simpl in E1; [|done].
    injection E1 as <-.
    destruct (match_full_groups _ _ _ E) as (Hlen & _).
    destruct g' as [|? [|? [|? [|? [|? [|]]]]]]; try done.
    unfold full_format, group. simpl.
    destruct (Re.opt_part r) as [p|] eqn:Hp; simpl; [|by left].
    destruct (opt_part_digits _ _ Hp) as [Hne Hd].
    destruct p; [done|]. simpl. right. by eexists. }
  destruct (pattern_alternative _) as [g|] eqn:E2.
  { intros [= <-]. destruct (pattern_alternative_groups _ _ E2) as [Hlen _].
    left. unfold full_format. simpl.
    by replace (5 <? length g) with false by (symmetry; apply Nat.ltb_ge; lia). }
  destruct (pattern_simple _) as [g|]; simpl; [|done].
  intros [= <-]. by left.
Qed.

Lemma part_suffix_plain parsed :
  part parsed = None ∨ (∃ p, part parsed = Some p ∧ run_of PyStr.isdigit p) →
  PyStr.all plain (part_suffix parsed) = true
  ∧ PyStr.all (λ x, negb (Ascii.eqb x "]")) (part_suffix parsed) = true.
Proof.
  unfold part_suffix. intros [->|(p & -> & Hne & Hd)]; [done|].
  destruct (PyStr.is_empty p); [done|].
  rewrite !all_append. split; apply andb_true_iff; split; try done.
  - eapply all_impl; [|done]. intros c Hc.
    apply letter_or_digit_plain. unfold PyStr.isupper_or_digit.
    by rewrite Hc, orb_true_r.
  - eapply all_impl; [|done]. intros c Hc.
    apply letter_or_digit_plain. unfold PyStr.isupper_or_digit.
    by rewrite Hc, orb_true_r.
Qed.

(** The generated name, split before its closing part. *)
Lemma generate_new_filename_tail db filename parsed n :
  parse_filename filename = Some parsed →
  generate_new_filename db parsed filename = Some n →
  ∃ id info stem,
    cusa parsed = Some id ∧ is_identifier id = true ∧ db !! id = Some info
    ∧ n = stem +:+ "][" +:+ id +:+ "]" +:+ part_suffix parsed +:+ ".pkg"
    ∧ PyStr.all plain ("][" +:+ id +:+ "]" +:+ part_suffix parsed +:+ ".pkg")
      = true.
Proof.
  intros Hparse Hgen.
  destruct (parse_filename_identifier _ _ Hparse) as (id & Hid & Hok).
  pose proof (is_identifier_nonempty _ Hok) as Hne.
  destruct (db !! id) as [info|] eqn:Hdb.
  2:{ by rewrite (generate_new_filename_missing _ _ _ _ Hid Hdb) in Hgen. }
  rewrite (generate_new_filename_found _ _ _ _ _ Hid Hne Hdb) in Hgen.
  injection Hgen as <-.
  assert (Hplain : PyStr.all plain
            ("][" +:+ id +:+ "]" +:+ part_suffix parsed +:+ ".pkg") = true).
  { destruct (part_suffix_plain parsed (parse_filename_part _ _ Hparse))
      as [Hps _].
    change ("][" +:+ id +:+ "]" +:+ part_suffix parsed +:+ ".pkg")
      with ("][" +:+ (id +:+ ("]" +:+ (part_suffix parsed +:+ ".pkg")))).
    rewrite (all_append _ "]["), (all_append _ id), (all_append _ "]"),
      (all_append _ (part_suffix parsed)), Hps.
    rewrite (all_impl PyStr.isupper_or_digit plain id);
      [done|apply letter_or_digit_plain|by apply is_identifier_letters_digits]. }
  exists id, info,
    (PyStr.ltrim PyStr.isspace
       (PyStr.sub_spaces false
          (PyStr.filter (λ c, negb (is_invalid c))
             (GameInfo.name info +:+ " [UPDATE "
                +:+ format_version (GameInfo.version info))))).
  split_and!; [done..| |done].
  rewrite <- sanitize_filename_append; [|exact Hplain|by intros [=]].
  f_equal. by rewrite !append_assoc.
Qed.

(** ** Sanitized names *)

Lemma sanitize_filename_clean x :
  PyStr.all (λ c, negb (is_invalid c)) (sanitize_filename x) = true
  ∧ single_spaced (sanitize_filename x) = true
  ∧ starts_with_space (sanitize_filename x) = false.
Proof.
  rewrite sanitize_filename_unfold. unfold PyStr.strip. split_and!.
  - apply all_rtrim, all_ltrim, all_sub_spaces; [done|]. apply all_filter.
  - apply collapsed_rtrim, collapsed_ltrim, sub_spaces_collapsed.
  - apply rtrim_no_space, ltrim_no_space.
Qed.

Lemma sanitize_filename_fixed x :
  PyStr.all (λ c, negb (is_invalid c)) x = true →
  single_spaced x = true → starts_with_space x = false →
  sanitize_filename x = x.
Proof.
  intros Hvalid Hspaced Hstart. rewrite sanitize_filename_unfold.
  rewrite (filter_all_id _ _ Hvalid).
  destruct (sub_spaces_id _ (single_spaced_collapsed _ Hspaced)) as [-> _].
  unfold PyStr.strip. rewrite (ltrim_id _ Hstart).
  by apply single_spaced_rtrim.
Qed.

(** X1. [sanitize_filename] leaves a name as it is exactly when the name
    holds none of the invalid characters, starts with no whitespace, and
    has every whitespace in it as a single space between two other
    characters. *)
Theorem sanitize_filename_fixed_points (x : string) :
  sanitize_filename x = x
  ↔ PyStr.all (λ c, negb (is_invalid c)) x = true
    ∧ single_spaced x = true
    ∧ starts_with_space x = false.
Proof.
  split.
  - intros <-. apply sanitize_filename_clean.
  - intros (? & ? & ?). by apply sanitize_filename_fixed.
Qed.

(** X2. The name generated for a parsed file ends with the closing part
    that [generate_new_filename] composes, the identifier in brackets, the
    part suffix and the extension, which sanitization leaves as it is: the
    name is matched by [*.pkg] again, holds none of the invalid characters
    (no path separator among them), and is not changed by sanitizing it
    once more. *)
Theorem generated_name_shape (db : database) (filename : string)
    (parsed : parsed_data) (n : string) :
  parse_filename filename = Some parsed →
  generate_new_filename db parsed filename = Some n →
  ∃ id stem,
    cusa parsed = Some id
    ∧ n = stem +:+ "][" +:+ id +:+ "]" +:+ part_suffix parsed +:+ ".pkg"
    ∧ PyStr.endswith ".pkg" n = true
    ∧ PyStr.all (λ c, negb (is_invalid c)) n = true
    ∧ sanitize_filename n = n.
Proof.
  intros Hparse Hgen.
  destruct (generate_new_filename_tail _ _ _ _ Hparse Hgen)
    as (id & info & stem & Hid & Hok & Hdb & Hn & Hplain).
  rewrite (generate_new_filename_found _ _ _ _ _ Hid
             (is_identifier_nonempty _ Hok) Hdb) in Hgen.
  injection Hgen as Hgen.
  destruct (sanitize_filename_clean
              (GameInfo.name info +:+ " [UPDATE "
                 +:+ format_version (GameInfo.version info) +:+ "]["
                 +:+ id +:+ "]" +:+ part_suffix parsed +:+ ".pkg"))
    as (Hvalid & Hspaced & Hstart).
  rewrite Hgen in Hvalid, Hspaced, Hstart.
  exists id, stem. split_and!; [done|done| |done|].
  - rewrite Hn.
    replace (stem +:+ "][" +:+ id +:+ "]" +:+ part_suffix parsed +:+ ".pkg")
      with ((stem +:+ "][" +:+ id +:+ "]" +:+ part_suffix parsed) +:+ ".pkg")
      by by rewrite !append_assoc.
    apply endswith_append.
  - by apply sanitize_filename_fixed.
Qed.

Lemma generated_name_shape_witness :
  ∃ id stem,
    Some "CUSA00012" = Some id
    ∧ "Example Game [UPDATE 2.83][CUSA00012]_Part5.pkg"
      = stem +:+ "][" +:+ id +:+ "]" +:+ "_Part5" +:+ ".pkg".
Proof.
  destruct (generated_name_shape
              {[ "CUSA00012" := {| GameInfo.name := "Example: Game ";
                                   GameInfo.version := Some "0283";
                                   GameInfo.source := "CSV:titles.csv" |} ]}
              "UP0017-CUSA00012_00-DCUOLPS4LIVE0001-A0283-V0100_5.pkg"
              (full_format [Some "UP0017"; Some "CUSA00012";
                            Some "DCUOLPS4LIVE0001"; Some "0283";
                            Some "0100"; Some "5"])
              "Example Game [UPDATE 2.83][CUSA00012]_Part5.pkg")
    as (id & stem & Hid & Hn & _); [reflexivity|vm_compute; reflexivity|].
  by exists id, stem.
Defined.

(** ** Names that collide *)

Lemma part_suffix_inj p1 p2 :
  (part p1 = None ∨ ∃ p, part p1 = Some p ∧ run_of PyStr.isdigit p) →
  (part p2 = None ∨ ∃ p, part p2 = Some p ∧ run_of PyStr.isdigit p) →
  part_suffix p1 +:+ ".pkg" = part_suffix p2 +:+ ".pkg" →
  part p1 = part p2.
Proof.
  assert (Hdot : ∀ p, PyStr.all PyStr.isdigit p = true →
            PyStr.all (λ x, negb (Ascii.eqb x ".")) p = true).
  { intros p. apply all_impl. intros c Hc. apply letter_or_digit_plain.
    unfold PyStr.isupper_or_digit. by rewrite Hc, orb_true_r. }
  unfold part_suffix.
  intros [->|(q1 & -> & Hne1 & Hd1)] [->|(q2 & -> & Hne2 & Hd2)]; [done|..].
  - destruct q2; [done|]. by intros [=].
  - destruct q1; [done|]. by intros [=].
  - destruct q1 as [|c1 q1]; [done|]. destruct q2 as [|c2 q2]; [done|].
    cbn [PyStr.is_empty]. rewrite !append_assoc.
    intros H%append_inv_head.
    apply (split_at_last "." _ _ "pkg" "pkg") in H as [-> _]; [done|done..].
Qed.

(** X3. Two parsed files for which a name is generated get the same name
    exactly when they have the same identifier and the same part: files of
    different games, or different parts of one game, never collide with
    each other, and two files of the same game and part always do. *)
Theorem same_name_same_game (db : database) (f1 f2 : string)
    (p1 p2 : parsed_data) :
  parse_filename f1 = Some p1 → parse_filename f2 = Some p2 →
  is_Some (generate_new_filename db p1 f1) →
  generate_new_filename db p1 f1 = generate_new_filename db p2 f2
  ↔ cusa p1 = cusa p2 ∧ part p1 = part p2.
Proof.
  intros Hparse1 Hparse2 [n Hgen1]. split.
  - intros Heq. rewrite Hgen1 in Heq. symmetry in Heq.
    destruct (generate_new_filename_tail _ _ _ _ Hparse1 Hgen1)
      as (id1 & info1 & s1 & Hid1 & Hok1 & _ & Hn1 & _).
    destruct (generate_new_filename_tail _ _ _ _ Hparse2 Heq)
      as (id2 & info2 & s2 & Hid2 & Hok2 & _ & Hn2 & _).
    pose proof (parse_filename_part _ _ Hparse1) as Hpart1.
    pose proof (parse_filename_part _ _ Hparse2) as Hpart2.
    destruct (part_suffix_plain _ Hpart1) as [_ Hb1].
    destruct (part_suffix_plain _ Hpart2) as [_ Hb2].
    rewrite Hn1 in Hn2.
    replace (s1 +:+ "][" +:+ id1 +:+ "]" +:+ part_suffix p1 +:+ ".pkg")
      with ((s1 +:+ "][" +:+ id1) +:+ String "]" (part_suffix p1 +:+ ".pkg"))
      in Hn2 by by rewrite !append_assoc.
    replace (s2 +:+ "][" +:+ id2 +:+ "]" +:+ part_suffix p2 +:+ ".pkg")
      with ((s2 +:+ "][" +:+ id2) +:+ String "]" (part_suffix p2 +:+ ".pkg"))
      in Hn2 by by rewrite !append_assoc.
    apply split_at_last in Hn2 as [Hids Hparts];
      [|by rewrite all_append, ?Hb1, ?Hb2..].
    replace (s1 +:+ "][" +:+ id1) with ((s1 +:+ "]") +:+ String "[" id1)
      in Hids by by rewrite !append_assoc.
    replace (s2 +:+ "][" +:+ id2) with ((s2 +:+ "]") +:+ String "[" id2)
      in Hids by by rewrite !append_assoc.
    apply split_at_last in Hids as [_ ->].
    + split; [congruence|]. by apply part_suffix_inj.
    + eapply all_impl; [|by apply is_identifier_letters_digits].
      apply letter_or_digit_plain.
    + eapply all_impl; [|by apply is_identifier_letters_digits].
      apply letter_or_digit_plain.
  - intros [Hc Hp]. unfold generate_new_filename, part_suffix.
    by rewrite Hc, Hp.
Qed.

Lemma same_name_same_game_witness :
  generate_new_filename
    {[ "CUSA00012" := {| GameInfo.name := "Example Game";
                         GameInfo.version := Some "0283";
                         GameInfo.source := "CSV:titles.csv" |} ]}
    (simple_format [Some "CUSA00012"; Some "TITLEID"; Some "0100"])
    "CUSA00012-TITLEID-V0100.pkg"
  = generate_new_filename
      {[ "CUSA00012" := {| GameInfo.name := "Example Game";
                           GameInfo.version := Some "0283";
                           GameInfo.source := "CSV:titles.csv" |} ]}
      (full_format [Some "UP0017"; Some "CUSA00012"; Some "DCUOLPS4LIVE0001";
                    Some "0283"; Some "0100"; None])
      "UP0017-CUSA00012_00-DCUOLPS4LIVE0001-A0283-V0100.pkg".
Proof.
  apply (same_name_same_game _ "CUSA00012-TITLEID-V0100.pkg"
           "UP0017-CUSA00012_00-DCUOLPS4LIVE0001-A0283-V0100.pkg").
  - reflexivity.
  - reflexivity.
  - by eexists.
  - split; reflexivity.
Defined.

(** ** More on [format_version] *)

Lemma take_append (a b : string) : PyStr.take (String.length a) (a +:+ b) = a.
Proof.
  induction a as [|c a IH]; [by destruct b|].
  rewrite append_cons. simpl. by rewrite IH.
Qed.

Lemma drop_append (a b : string) : PyStr.drop (String.length a) (a +:+ b) = b.
Proof. induction a as [|c a IH]; [by destruct b|done]. Qed.

Lemma take_drop n (s : string) : PyStr.take n s +:+ PyStr.drop n s = s.
Proof.
  revert s. induction n as [|n IH]; intros [|c s]; simpl; try done.
  by rewrite append_cons, IH.
Qed.

Lemma length_drop n (s : string) :
  String.length (PyStr.drop n s) = String.length s - n.
Proof. revert s. induction n as [|n IH]; intros [|c s]; simpl; auto. Qed.

Lemma digits_dot acc b (r : string) : PyInt.digits acc b (r +:+ ".") = None.
Proof.
  revert acc b. induction r as [|c r IH]; intros acc b; [done|].
  rewrite append_cons. cbn [PyInt.digits].
  destruct (PyStr.isdigit c); [done|].
  by destruct (Ascii.eqb c "_" && b).
Qed.

(** [int] rejects what ends with a dot. *)
Lemma int_dot (m : string) : PyInt.int (m +:+ ".") = None.
Proof.
  unfold PyInt.int. rewrite ltrim_append by done.
  rewrite rtrim_append by done.
  destruct (PyStr.ltrim PyInt.isspace m) as [|c r]; [done|].
  rewrite append_cons.
  destruct (Ascii.eqb c "+"); [apply digits_dot|].
  destruct (Ascii.eqb c "-"); [by rewrite digits_dot|].
  rewrite <- append_cons. apply digits_dot.
Qed.

(** A major part, a dot and two more characters: [format_version] returns
    such a string as it is. *)
Lemma format_version_dotted (m t : string) :
  String.length t = 2 →
  format_version (Some (m +:+ "." +:+ t)) = m +:+ "." +:+ t.
Proof.
  intros Ht. unfold format_version.
  set (r := m +:+ "." +:+ t).
  assert (Hlen : String.length r = String.length (m +:+ ".") + 2).
  { unfold r. rewrite !length_append. simpl. lia. }
  assert (Hr : r = (m +:+ ".") +:+ t) by (unfold r; by rewrite append_assoc).
  destruct (PyStr.is_empty r) eqn:He.
  { apply is_empty_length in He. rewrite length_append in Hlen. simpl in Hlen.
    lia. }
  destruct (matches_dotted r); [done|].
  rewrite length_append in Hlen. simpl in Hlen.
  destruct (3 <=? String.length r) eqn:H3; [|apply Nat.leb_gt in H3; lia].
  replace (String.length r - 2) with (String.length (m +:+ "."))
    by (rewrite length_append; simpl; lia).
  replace (PyStr.take (String.length (m +:+ ".")) r) with (m +:+ ".")
    by (rewrite Hr; by rewrite take_append).
  rewrite int_dot.
  destruct (PyStr.is_empty (m +:+ ".")) eqn:He'; [|done].
  apply is_empty_length in He'. rewrite length_append in He'. simpl in He'. lia.
Qed.

Lemma length_zfill2 (v : string) :
  String.length v = 1 ∨ String.length v = 2 →
  String.length (PyStr.zfill2 v) = 2.
Proof.
  destruct v as [|c [|d [|? ?]]]; simpl; intros [H|H]; try lia; try done.
  by destruct (Ascii.eqb c "+" || Ascii.eqb c "-").
Qed.

(** X4. [format_version] applied to its own result returns that result: a
    version that went through it once is stable. *)
Theorem format_version_idempotent (version_str : option string) :
  format_version (Some (format_version version_str))
  = format_version version_str.
Proof.
  destruct version_str as [v|]; [|done].
  remember (format_version (Some v)) as r eqn:Hr.
  unfold format_version in Hr.
  destruct (PyStr.is_empty v) eqn:He; [by subst r|].
  destruct (matches_dotted v) eqn:Hm.
  { subst r. unfold format_version. by rewrite He, Hm. }
  destruct (3 <=? String.length v) eqn:H3.
  - apply Nat.leb_le in H3.
    assert (Hlast : String.length (PyStr.drop (String.length v - 2) v) = 2)
      by (rewrite length_drop; lia).
    destruct (PyStr.is_empty (PyStr.take (String.length v - 2) v)) eqn:Hh.
    { subst r. by apply format_version_dotted. }
    destruct (PyInt.int (PyStr.take (String.length v - 2) v)) as [n|] eqn:Hint;
      simpl in Hr; subst r.
    + by apply format_version_dotted.
    + unfold format_version. rewrite He, Hm.
      rewrite (leb_correct 3) by done. by rewrite Hint, Hh.
  - apply Nat.leb_gt in H3. subst r.
    apply (format_version_dotted "1"), length_zfill2.
    destruct v as [|? [|? [|? ?]]]; simpl in *; try done; lia.
Qed.

(** A run of at least three digits: the number written by all but the last
    two, a dot, and the last two. *)
Lemma format_version_digits (v : string) :
  PyStr.all PyStr.isdigit v = true → 3 ≤ String.length v →
  format_version (Some v)
  = PyInt.str (decimal_value 0 (PyStr.take (String.length v - 2) v))
      +:+ "." +:+ PyStr.drop (String.length v - 2) v.
Proof.
  intros Hv Hlen. unfold format_version.
  rewrite (matches_dotted_not_digits _ Hv).
  destruct (PyStr.is_empty v) eqn:He.
  { apply is_empty_length in He. lia. }
  rewrite (leb_correct 3) by done.
  set (head := PyStr.take (String.length v - 2) v).
  assert (Hhead : String.length head = String.length v - 2)
    by (apply length_take; lia).
  destruct (PyStr.is_empty head) eqn:He'.
  { apply is_empty_length in He'. lia. }
  rewrite (int_digits head); [reflexivity|by apply all_take|].
  intros E. rewrite E in Hhead. simpl in Hhead. lia.
Qed.

Lemma digit_range c :
  PyStr.isdigit c = true → (0 ≤ PyInt.digit c ≤ 9)%Z.
Proof.
  unfold PyStr.isdigit, PyInt.digit.
  intros [H1%N.leb_le H2%N.leb_le]%andb_true_iff. lia.
Qed.

Lemma all_drop p n (s : string) :
  PyStr.all p s = true → PyStr.all p (PyStr.drop n s) = true.
Proof.
  revert s. induction n as [|n IH]; intros [|c s]; simpl; try done.
  intros [_ Hs]%andb_true_iff. auto.
Qed.

(** The numbers below one hundred are written with one or two digits. *)
Lemma str_below_hundred (n : Z) :
  (0 ≤ n < 100)%Z →
  PyStr.all PyStr.isdigit (PyInt.str n) = true
  ∧ (String.length (PyInt.str n) = 1 ∨ String.length (PyInt.str n) = 2).
Proof.
  intros Hn.
  assert (Hk : ∀ k : nat, k < 100 →
            PyStr.all PyStr.isdigit (PyInt.str (Z.of_nat k)) = true
            ∧ (String.length (PyInt.str (Z.of_nat k)) = 1
               ∨ String.length (PyInt.str (Z.of_nat k)) = 2)).
  { intros k Hk.
    do 10 (destruct k as [|k]; [vm_compute; by split; [|left]|]).
    do 90 (destruct k as [|k]; [vm_compute; by split; [|right]|]).
    lia. }
  rewrite <- (Z2Nat.id n) by lia. apply Hk. lia.
Qed.

(** X5. For a version code of one to four digits, [format_version] returns
    the canonical dotted form: one or two digits, a dot, two digits. *)
Theorem format_version_short_codes (v : string) :
  PyStr.all PyStr.isdigit v = true →
  1 ≤ String.length v ≤ 4 →
  canonical_dotted (format_version (Some v)).
Proof.
  intros Hv Hlen.
  destruct (decide (3 ≤ String.length v)) as [H3|H3].
  - rewrite (format_version_digits v Hv H3).
    set (head := PyStr.take (String.length v - 2) v).
    assert (Hhead : PyStr.all PyStr.isdigit head = true) by by apply all_take.
    assert (Hhlen : String.length head = String.length v - 2)
      by (apply length_take; lia).
    assert (Hrange : (0 ≤ decimal_value 0 head < 100)%Z).
    { destruct head as [|a [|b [|? ?]]]; simpl in Hhlen; try lia.
      - simpl in Hhead. rewrite andb_true_r in Hhead.
        pose proof (digit_range a Hhead). simpl. lia.
      - simpl in Hhead. apply andb_true_iff in Hhead as [Ha Hb].
        rewrite andb_true_r in Hb.
        pose proof (digit_range a Ha). pose proof (digit_range b Hb).
        simpl. lia. }
    destruct (str_below_hundred _ Hrange) as [Hd Hl].
    eexists _, _. split_and!; [done|done|done|by apply all_drop|].
    rewrite length_drop. lia.
  - destruct v as [|c [|d [|? ?]]]; simpl in Hlen, H3; try lia.
    + simpl in Hv. rewrite andb_true_r in Hv.
      unfold format_version.
      rewrite (matches_dotted_not_digits (String c "")) by (simpl; by rewrite Hv).
      simpl. destruct (isdigit_plain c Hv) as (_ & -> & -> & _). simpl.
      exists "1", (String "0" (String c "")).
      split_and!; [done|done|by left| |done]. simpl. by rewrite Hv.
    + unfold format_version. rewrite (matches_dotted_not_digits _ Hv). simpl.
      exists "1", (String c (String d "")). by split_and!; [..|left| |].
Qed.

Lemma format_version_short_codes_witness :
  canonical_dotted (format_version (Some "0283")).
Proof.
  apply (format_version_short_codes "0283"); [reflexivity|simpl; lia].
Defined.

(** ** The patterns of [parse_filename] *)

Lemma digit_not_upper c : PyStr.isdigit c = true → PyStr.isupper c = false.
Proof. destruct c as [[] [] [] [] [] [] [] []]; vm_compute; by intros. Qed.

(** A name of the full format does not start like one of the simple
    format: its third character is a digit, not a letter. *)
Lemma match_full_not_simple s r :
  match_full s = Some r → pattern_simple s = None.
Proof.
  unfold match_full. intros H. bind_inv H. bind_inv H.
  apply exactly_spec in E as (Hl & Hlen & ->).
  apply many1_spec in E0 as (Hd & Hne & ->).
  destruct s0 as [|a [|b [|? ?]]]; try done.
  destruct s2 as [|d s2]; [done|].
  simpl in Hd. apply andb_true_iff in Hd as [Hd _].
  unfold pattern_simple. simpl.
  destruct (PyStr.isupper a); [|done]. destruct (PyStr.isupper b); [|done].
  by rewrite (digit_not_upper d Hd).
Qed.

(** X6. The order of the three patterns plays no part, and the second one
    never decides: a name that the standard pattern matches is matched by
    the alternative one and never by the simple one, so that the result of
    [parse_filename] is that of the standard and the simple pattern, tried
    in any order. *)
Theorem pattern_order_irrelevant (base_name : string) :
  (is_Some (pattern_alternative base_name)
   ↔ is_Some (pattern_standard base_name))
  ∧ (is_Some (pattern_standard base_name) → pattern_simple base_name = None)
  ∧ parse_with [pattern_standard; pattern_simple] base_name
    = parse_with patterns base_name
  ∧ parse_with [pattern_simple; pattern_standard] base_name
    = parse_with patterns base_name.
Proof.
  rewrite parse_with_patterns. unfold pattern_alternative.
  destruct (pattern_standard base_name) as [g|] eqn:E1.
  - pose proof E1 as E1'. unfold pattern_standard in E1'.
    destruct (match_full base_name) as [[g' r]|] eqn:E; [|done].
    pose proof (match_full_not_simple _ _ E) as Hsimple.
    destruct (pattern_standard_groups _ _ E1) as [Hlen _].
    split_and!.
    + split; by eexists.
    + done.
    + simpl. by rewrite E1, Hlen.
    + simpl. by rewrite Hsimple, E1, Hlen.
  - unfold pattern_standard in E1.
    destruct (match_full base_name) as [[g' r]|] eqn:E; [done|].
    split_and!.
    + split; by intros [? ?].
    + by intros [? ?].
    + simpl. unfold pattern_standard. rewrite E. simpl.
      destruct (pattern_simple base_name) as [g|] eqn:E3; [|done].
      by destruct (pattern_simple_groups _ _ E3) as [-> _].
    + simpl. unfold pattern_standard. rewrite E. simpl.
      destruct (pattern_simple base_name) as [g|] eqn:E3; [|done].
      by destruct (pattern_simple_groups _ _ E3) as [-> _].
Qed.

(** ** Composing a name and parsing it back *)

Lemma run_no_dot p (s : string) :
  (∀ c, p c = true → PyStr.isupper_or_digit c = true) →
  PyStr.all p s = true → PyStr.all no_dot s = true.
Proof.
  intros Hp. apply all_impl. intros c Hc.
  by apply letter_or_digit_plain, Hp.
Qed.

Lemma remove_sub_no_dot (a t : string) :
  PyStr.all no_dot a = true →
  PyStr.remove_sub_go ".pkg" 0 (a +:+ t)
  = a +:+ PyStr.remove_sub_go ".pkg" 0 t.
Proof.
  induction a as [|c a IH]; [done|].
  intros [Hc Ha]%andb_true_iff. rewrite !append_cons.
  cbn [PyStr.remove_sub_go PyStr.strip_prefix].
  unfold no_dot in Hc. apply negb_true_iff, Ascii.eqb_neq in Hc.
  destruct (Ascii.eqb_spec "." c) as [Heq|_]; [congruence|].
  by rewrite IH.
Qed.

Lemma span_append p (m r : string) :
  PyStr.all p m = true → stops p r → PyStr.span p (m +:+ r) = (m, r).
Proof.
  intros Hm Hr. induction m as [|c m IH].
  - destruct r as [|d r]; [done|]. simpl in *. by rewrite Hr.
  - simpl in Hm. apply andb_true_iff in Hm as [Hc Hm].
    rewrite append_cons. simpl. by rewrite Hc, IH.
Qed.

Lemma many1_append p (m r : string) :
  run_of p m → stops p r → Re.many1 p (m +:+ r) = Some (m, r).
Proof.
  intros [Hne Hm] Hr. unfold Re.many1. rewrite span_append by done.
  by destruct m.
Qed.

Lemma lit_append (l r : string) : Re.lit l (l +:+ r) = Some r.
Proof. apply strip_prefix_app. Qed.

Lemma upper_no_dot (s : string) :
  PyStr.all PyStr.isupper s = true → PyStr.all no_dot s = true.
Proof.
  apply run_no_dot. intros c Hc. unfold PyStr.isupper_or_digit. by rewrite Hc.
Qed.

Lemma digit_no_dot (s : string) :
  PyStr.all PyStr.isdigit s = true → PyStr.all no_dot s = true.
Proof.
  apply run_no_dot. intros c Hc. unfold PyStr.isupper_or_digit.
  by rewrite Hc, orb_true_r.
Qed.

Lemma code_no_dot (s : string) :
  PyStr.all PyStr.isupper_or_digit s = true → PyStr.all no_dot s = true.
Proof. by apply run_no_dot. Qed.

(** The pieces of a composed name hold no dot. *)
Ltac solve_no_dot :=
  first [ reflexivity
        | apply upper_no_dot; assumption
        | apply digit_no_dot; assumption
        | apply code_no_dot; assumption ].

(** One matcher of a pattern, on a subject that starts with what it
    takes. *)
Ltac match_step :=
  first [ rewrite exactly_app by assumption
        | rewrite many1_append by
            first [ assumption | exact I | exact (eq_refl false) ]
        | rewrite lit_append ];
  cbn beta iota delta [mbind option_bind].

(** X7. A file name composed in the full format, from a publisher, an
    identifier, a suffix, a title code, an application version, a version
    and possibly a part, is parsed back into exactly these fields. *)
Theorem parse_full_name_round_trip
    (pub_letters pub_digits id_letters id_digits suffix title app v : string)
    (part_no : option string) :
  PyStr.all PyStr.isupper pub_letters = true → String.length pub_letters = 2 →
  run_of PyStr.isdigit pub_digits →
  PyStr.all PyStr.isupper id_letters = true → String.length id_letters = 4 →
  run_of PyStr.isdigit id_digits →
  run_of PyStr.isdigit suffix →
  run_of PyStr.isupper_or_digit title →
  run_of PyStr.isdigit app →
  run_of PyStr.isdigit v →
  (∀ p, part_no = Some p → run_of PyStr.isdigit p) →
  parse_filename
    (full_name pub_letters pub_digits id_letters id_digits suffix title app v
       part_no)
  = Some {| publisher := Some (pub_letters +:+ pub_digits);
            cusa := Some (id_letters +:+ id_digits);
            title_code := Some title;
            app_version := Some app;
            version := Some v;
            part := part_no |}.
Proof.
  intros Hpl Hpl2 Hpd Hil Hil4 Hid Hsuf Htitle Happ Hv Hpart.
  pose proof Hpd as [_ Hpd']. pose proof Hid as [_ Hid'].
  pose proof Hsuf as [_ Hsuf']. pose proof Htitle as [_ Htitle'].
  pose proof Happ as [_ Happ']. pose proof Hv as [_ Hv'].
  unfold parse_filename, full_name, PyStr.remove_sub.
  do 13 (rewrite remove_sub_no_dot by solve_no_dot).
  rewrite parse_with_patterns. unfold pattern_standard, match_full.
  destruct part_no as [p|].
  - pose proof (Hpart p eq_refl) as Hrun. pose proof Hrun as [Hne Hp].
    rewrite (append_assoc "_" p ".pkg").
    do 2 (rewrite remove_sub_no_dot by solve_no_dot).
    change (PyStr.remove_sub_go ".pkg" 0 ".pkg") with "".
    do 13 match_step.
    unfold Re.opt_part. do 2 match_step.
    unfold full_format, group, truthy. simpl.
    by destruct p.
  - change ("" +:+ ".pkg") with ".pkg".
    change (PyStr.remove_sub_go ".pkg" 0 ".pkg") with "".
    do 13 match_step. done.
Qed.

Lemma parse_full_name_round_trip_witness :
  parse_filename "UP0017-CUSA00012_00-DCUOLPS4LIVE0001-A0283-V0100_5.pkg"
  = Some {| publisher := Some "UP0017";
            cusa := Some "CUSA00012";
            title_code := Some "DCUOLPS4LIVE0001";
            app_version := Some "0283";
            version := Some "0100";
            part := Some "5" |}.
Proof.
  apply (parse_full_name_round_trip "UP" "0017" "CUSA" "00012" "00"
           "DCUOLPS4LIVE0001" "0283" "0100" (Some "5"));
    try reflexivity; try (split; [discriminate|reflexivity]).
  intros p [= <-]. split; [discriminate|reflexivity].
Defined.

(** X8. A file name composed in the simple format, from an identifier, a
    title code and a version, is parsed back into exactly these fields. *)
Theorem parse_simple_name_round_trip (id_letters id_digits title v : string) :
  PyStr.all PyStr.isupper id_letters = true → String.length id_letters = 4 →
  run_of PyStr.isdigit id_digits →
  run_of PyStr.isupper_or_digit title →
  run_of PyStr.isdigit v →
  parse_filename (simple_name id_letters id_digits title v)
  = Some {| publisher := None;
            cusa := Some (id_letters +:+ id_digits);
            title_code := Some title;
            app_version := None;
            version := Some v;
            part := None |}.
Proof.
  intros Hil Hil4 Hid Htitle Hv.
  pose proof Hid as [_ Hid']. pose proof Htitle as [_ Htitle'].
  pose proof Hv as [_ Hv'].
  unfold parse_filename, simple_name, PyStr.remove_sub.
  do 6 (rewrite remove_sub_no_dot by solve_no_dot).
  change (PyStr.remove_sub_go ".pkg" 0 ".pkg") with "".
  assert (Hsimple : pattern_simple
            (id_letters +:+ id_digits +:+ "-" +:+ title +:+ "-V" +:+ v +:+ "")
          = Some [Some (id_letters +:+ id_digits); Some title; Some v]).
  { unfold pattern_simple. by do 6 match_step. }
  rewrite parse_with_patterns. unfold pattern_alternative, pattern_standard.
  destruct (match_full _) as [r|] eqn:E.
  { apply match_full_not_simple in E. congruence. }
  simpl. by rewrite Hsimple.
Qed.

Lemma parse_simple_name_round_trip_witness :
  parse_filename "CUSA00012-TITLEID-V0283.pkg"
  = Some {| publisher := None;
            cusa := Some "CUSA00012";
            title_code := Some "TITLEID";
            app_version := None;
            version := Some "0283";
            part := None |}.
Proof.
  apply (parse_simple_name_round_trip "CUSA" "00012" "TITLEID" "0283");
    try reflexivity; split; try discriminate; reflexivity.
Defined.

(** ** More on the database *)

(** What [re.search] finds is an identifier for the parser too. *)
Lemma search_cusa_identifier s c :
  search_cusa s = Some c →
  is_identifier c = true
  ∧ ∃ ds, c = "CUSA" +:+ ds ∧ run_of PyStr.isdigit ds.
Proof.
  intros (pre & ds & post & _ & -> & Hne & Hds)%search_cusa_spec.
  split; [|by exists ds].
  by apply (is_identifier_app "CUSA" ds).
Qed.

Lemma records_of_key s c info :
  (c, info) ∈ records_of s → ∃ field, search_cusa field = Some c.
Proof.
  destruct s as [file [df|]|file [[[results|]]|]]; simpl;
    try by intros ?%elem_of_nil.
  - destruct (bool_decide _ && bool_decide _); [|by intros ?%elem_of_nil].
    intros (row & _ & Hrec)%list_elem_of_omap.
    unfold csv_record in Hrec. repeat bind_inv Hrec.
    injection Hrec as <- _. by eexists.
  - intros (result & _ & Hrec)%list_elem_of_omap.
    unfold json_record in Hrec.
    destruct (json_considered result); [|done].
    destruct (default _ (Json.title_id result)) as [|title_id]; [done|].
    destruct (json_name result) as [|name]; [done|].
    destruct (PyStr.is_empty name); [done|].
    repeat bind_inv Hrec. injection Hrec as <- _. by eexists.
Qed.

(** X9. Every key of a database that the loaders filled from nothing is
    [CUSA] followed by at least one digit, which is an identifier of the
    kind that [parse_filename] finds in a file name. *)
Theorem database_keys_are_cusa (sources : list source) (c : string) :
  is_Some (ingest_all ∅ sources !! c) →
  is_identifier c = true
  ∧ ∃ ds, c = "CUSA" +:+ ds ∧ run_of PyStr.isdigit ds.
Proof.
  rewrite ingest_all_spec. intros Hc%elem_of_dom.
  rewrite dom_store, dom_empty_L, (left_id_L ∅ (∪)) in Hc.
  apply elem_of_list_to_set, list_elem_of_fmap in Hc as ([c' info] & -> & Hin).
  apply list_elem_of_join in Hin as (l & Hin & Hl).
  apply list_elem_of_fmap in Hl as (s & -> & _).
  destruct (records_of_key _ _ _ Hin) as [field Hfield].
  by eapply search_cusa_identifier.
Qed.

Lemma database_keys_are_cusa_witness :
  is_identifier "CUSA00012" = true
  ∧ ∃ ds, "CUSA00012" = "CUSA" +:+ ds ∧ run_of PyStr.isdigit ds.
Proof.
  apply (database_keys_are_cusa
           [CsvSource "titles.csv"
              (Some {| Csv.columns := ["Title_ID"; "Title_Name"];
                       Csv.rows := [ {[ "Title_ID" := "CUSA00012_00";
                                        "Title_Name" := "Example Game" ]} ] |})]).
  vm_compute. by eexists.
Defined.

(** X10. Loading a source never removes a record: an identifier that has a
    record before has one after, the database does not shrink, and the
    record of an identifier for which the source yields nothing is the one
    it was. *)
Theorem ingest_keeps_records (db : database) (s : source) (c : string) :
  (is_Some (db !! c) → is_Some (ingest db s !! c))
  ∧ size db ≤ size (ingest db s)
  ∧ (c ∉ (records_of s).*1 → ingest db s !! c = db !! c).
Proof.
  rewrite ingest_spec. split_and!.
  - intros Hc%elem_of_dom. apply elem_of_dom. rewrite dom_store.
    by apply elem_of_union_l.
  - rewrite <- !size_dom. apply subseteq_size. rewrite dom_store.
    apply union_subseteq_l.
  - apply lookup_store_other.
Qed.

Lemma ingest_keeps_records_witness :
  let db : database :=
    {[ "CUSA00008" := {| GameInfo.name := "Other Game";
                         GameInfo.version := Some "01.81";
                         GameInfo.source := "CSV:old.csv" |} ]} in
  let s := CsvSource "titles.csv"
    (Some {| Csv.columns := ["Title_ID"; "Title_Name"];
             Csv.rows := [ {[ "Title_ID" := "CUSA00012";
                              "Title_Name" := "Example Game" ]} ] |}) in
  ingest db s !! "CUSA00008" = db !! "CUSA00008".
Proof.
  intros db s. apply (ingest_keeps_records db s "CUSA00008").
  apply (bool_decide_unpack _). vm_compute. reflexivity.
Defined.

Lemma before_raise_at {A} (raises : A → bool) (pre : list A) bad post :
  existsb raises pre = false → raises bad = true →
  before_raise raises (pre ++ bad :: post) = pre
  ∧ existsb raises (pre ++ bad :: post) = true.
Proof.
  intros Hpre Hbad. induction pre as [|x pre IH]; simpl.
  - by rewrite Hbad.
  - simpl in Hpre. apply orb_false_iff in Hpre as [-> Hpre].
    destruct (IH Hpre) as [-> ->]. done.
Qed.

(** X11. When an entry of a JSON catalog, or a row of a CSV catalog, makes
    the loop raise, the loader returns 0 although the records of the
    entries before it are in the database; the entries after it are not
    read. *)
Theorem loader_raises_midway (db : database) (file : string) :
  (∀ pre bad post,
     existsb json_result_raises pre = false → json_result_raises bad = true →
     load_json_data db file
       (Some {| Json.results := Some (pre ++ bad :: post) |})
     = (foldl store db (omap (json_record file) pre), 0))
  ∧ (∀ columns pre bad post,
       "Title_ID" ∈ columns → "Title_Name" ∈ columns →
       existsb csv_row_raises pre = false → csv_row_raises bad = true →
       load_csv_data db file
         (Some {| Csv.columns := columns; Csv.rows := pre ++ bad :: post |})
       = (foldl store db (omap (csv_record file) pre), 0)).
Proof.
  split.
  - intros pre bad post Hpre Hbad. rewrite load_json_data_spec.
    unfold records_of, count_of.
    by destruct (before_raise_at json_result_raises pre bad post Hpre Hbad)
      as [-> ->].
  - intros columns pre bad post Hid Hname Hpre Hbad.
    rewrite load_csv_data_spec. unfold records_of, count_of. simpl.
    rewrite !bool_decide_eq_true_2 by done.
    by destruct (before_raise_at csv_row_raises pre bad post Hpre Hbad)
      as [-> ->].
Qed.

Lemma loader_raises_midway_witness :
  let good :=
    {| Json.status := Some (Json.Str "found"); Json.has_updates := true;
       Json.title_id := Some (Json.Str "CUSA00012");
       Json.title_name := Some (Json.Str "Example Game");
       Json.sony_game_name := None;
       Json.latest_version := Some (Json.Str "01.10") |} in
  let bad :=
    {| Json.status := Some (Json.Str "found"); Json.has_updates := true;
       Json.title_id := Some Json.Null;
       Json.title_name := Some (Json.Str "Other Game");
       Json.sony_game_name := None;
       Json.latest_version := None |} in
  load_json_data ∅ "titles.json"
    (Some {| Json.results := Some ([good] ++ bad :: [good]) |})
  = (foldl store ∅ (omap (json_record "titles.json") [good]), 0).
Proof.
  intros good bad.
  apply (proj1 (loader_raises_midway ∅ "titles.json")); reflexivity.
Defined.

(** ** More on the rename pass *)

Lemma rename_file_renamed rename_error self fs old target dry_run :
  let '(self', _, _) := rename_file rename_error self fs old target dry_run in
  let o := rename_outcome rename_error self fs old target dry_run in
  renamed_files self'
  = renamed_files self ++ option_list (renamed_entry_of (target_directory self) o)
  ∧ target_directory self' = target_directory self
  ∧ (dry_run = true → errors self' = errors self).
Proof.
  unfold rename_file, rename_outcome. case_bool_decide.
  { simpl. by rewrite app_nil_r. }
  destruct dry_run; [done|].
  destruct (os_rename _ _ _ _) as [fs'|e]; simpl; [done|].
  by rewrite app_nil_r.
Qed.

(** What a pass does to the counters [processed], [total_files] and
    [skipped], to the list of renamed files and to the target directory of
    the renamer. *)
Lemma process_files_more rename_error files dry_run self fs stats :
  let '(self', _, stats', trace) :=
    process_files rename_error files dry_run self fs stats in
  Stats.processed stats'
  = Stats.processed stats
    + length (List.filter (λ o, bool_decide (is_Some (target_of o))) trace)
  ∧ Stats.total_files stats' = Stats.total_files stats
  ∧ Stats.skipped stats' = Stats.skipped stats
  ∧ renamed_files self'
    = renamed_files self ++ omap (renamed_entry_of (target_directory self)) trace
  ∧ target_directory self' = target_directory self
  ∧ (dry_run = true → errors self' = errors self).
Proof.
  revert self fs stats. induction files as [|f files IH]; intros self fs stats.
  { simpl. rewrite app_nil_r. split_and!; try done; lia. }
  cbn [process_files].
  destruct (parse_filename f) as [parsed|] eqn:Hparse.
  - destruct (generate_new_filename _ parsed f) as [target|] eqn:Hgen.
    + pose proof (rename_file_renamed rename_error self fs f target dry_run)
        as Hrename.
      pose proof (rename_file_errors rename_error self fs f target dry_run)
        as Herrors.
      destruct (rename_file _ _ _ _ _ _) as [[self1 fs1] ok].
      destruct Hrename as (Hren & Hdir & Hdry).
      destruct Herrors as (_ & -> & Ho).
      set (o := rename_outcome rename_error self fs f target dry_run) in *.
      clearbody o.
      specialize (IH self1 fs1 (if is_rename o then bump_renamed stats
                                else bump_errors stats true)).
      destruct (process_files _ _ _ _ _ _) as [[[self' fs'] stats'] trace].
      destruct IH as (Hp & Ht & Hs & Hr & Hd & He). rewrite Hdir in Hr.
      assert (Htarget : bool_decide (is_Some (target_of o)) = true).
      { apply bool_decide_eq_true_2.
        destruct Ho as [->|[->|[e ->]]]; by eexists. }
      split_and!.
      * rewrite Hp. simpl. rewrite Htarget. destruct (is_rename o); simpl; lia.
      * rewrite Ht. by destruct (is_rename o).
      * rewrite Hs. by destruct (is_rename o).
      * rewrite Hr, Hren, <- (assoc_L (++)). simpl.
        by destruct (renamed_entry_of (target_directory self) o).
      * congruence.
      * intros Hd'. rewrite (He Hd'). auto.
    + specialize (IH self fs (bump_errors stats false)).
      destruct (process_files _ _ _ _ _ _) as [[[self' fs'] stats'] trace].
      destruct IH as (Hp & Ht & Hs & Hr & Hd & He).
      split_and!; try done. rewrite Hp. simpl. lia.
  - specialize (IH self fs (bump_errors stats false)).
    destruct (process_files _ _ _ _ _ _) as [[[self' fs'] stats'] trace].
    destruct IH as (Hp & Ht & Hs & Hr & Hd & He).
    split_and!; try done. rewrite Hp. simpl. lia.
Qed.




Lemma process_files_dry_trace rename_error files self fs stats :
  let '(_, _, _, trace) :=
    process_files rename_error files true self fs stats in
  omap error_entry_of trace = [].
Proof.
  revert self fs stats. induction files as [|f files IH]; intros self fs stats.
  { done. }
  cbn [process_files].
  destruct (parse_filename f) as [parsed|].
  - destruct (generate_new_filename _ parsed f) as [target|].
    + assert (Ho : error_entry_of
                (rename_outcome rename_error self fs f target true) = None).
      { unfold rename_outcome. by case_bool_decide. }
      destruct (rename_file _ _ _ _ _ _) as [[self1 fs1] ok].
      specialize (IH self1 fs1 (if ok then bump_renamed stats
                                else bump_errors stats true)).
      destruct (process_files _ _ _ _ _ _) as [[[self' fs'] stats'] trace].
      simpl. by rewrite Ho.
    + specialize (IH self fs (bump_errors stats false)).
      by destruct (process_files _ _ _ _ _ _) as [[[self' fs'] stats'] trace].
  - specialize (IH self fs (bump_errors stats false)).
    by destruct (process_files _ _ _ _ _ _) as [[[self' fs'] stats'] trace].
Qed.

(** X13. A dry run leaves the directory, the database, the target
    directory of the renamer and the error list as they are, and none of
    its outcomes is a failed rename. *)
Theorem dry_run_changes_nothing
    (rename_error : string → string → option string)
    (self : renamer) (fs : directory) :
  let '(self', fs', _, trace) :=
    process_directory rename_error self fs true in
  fs' = fs
  ∧ game_database self' = game_database self
  ∧ target_directory self' = target_directory self
  ∧ errors self' = errors self
  ∧ Forall (λ o, kind_of o ≠ KindFailed) trace.
Proof.
  unfold process_directory.
  set (stats0 := {| Stats.total_files := length (glob_pkg fs);
                    Stats.processed := 0; Stats.renamed := 0;
                    Stats.errors := 0; Stats.skipped := 0 |}).
  pose proof (process_files_database rename_error (glob_pkg fs) true self
                fs stats0) as Hdb.
  pose proof (process_files_more rename_error (glob_pkg fs) true self fs
                stats0) as Hmore.
  pose proof (process_files_dry rename_error (glob_pkg fs) self fs stats0)
    as Hfs.
  pose proof (process_files_dry_trace rename_error (glob_pkg fs) self fs stats0)
    as Htrace.
  destruct (process_files _ _ _ _ _ _) as [[[self' fs'] stats'] trace].
  destruct Hmore as (_ & _ & _ & _ & Hdir & Herr). simpl in *.
  split_and!; [done|done|done|auto|].
  clear -Htrace. induction trace as [|o trace IH]; [constructor|].
  simpl in Htrace. destruct o; simpl in *; try done;
    constructor; try done; by apply IH.
Qed.

(** X14. The list of renamed files grows, in the order of the pass, by one
    entry for each file that was renamed (or would be, in a dry run), with
    the name of the file, the name generated for it and the target
    directory; so it grows by as many entries as the pass counts under
    [renamed]. *)
Theorem renamed_files_match_renames
    (rename_error : string → string → option string)
    (self : renamer) (fs : directory) (dry_run : bool) :
  let '(self', _, stats, trace) :=
    process_directory rename_error self fs dry_run in
  renamed_files self'
  = renamed_files self ++ omap (renamed_entry_of (target_directory self)) trace
  ∧ length (renamed_files self')
    = length (renamed_files self) + Stats.renamed stats
  ∧ Forall (λ e, path e = target_directory self
                 ∧ new_name_for (game_database self) (original e)
                   = Some (new e))
      (omap (renamed_entry_of (target_directory self)) trace).
Proof.
  unfold process_directory.
  set (stats0 := {| Stats.total_files := length (glob_pkg fs);
                    Stats.processed := 0; Stats.renamed := 0;
                    Stats.errors := 0; Stats.skipped := 0 |}).
  pose proof (process_files_counts rename_error (glob_pkg fs) dry_run self fs
                stats0) as H1.
  pose proof (process_files_more rename_error (glob_pkg fs) dry_run self fs
                stats0) as H2.
  destruct (process_files _ _ _ _ _ _) as [[[self' fs'] stats'] trace].
  destruct H1 as (Hall & _ & Hr & _).
  destruct H2 as (_ & _ & _ & Hren & _).
  split_and!; [done| |].
  - rewrite Hren, length_app, Hr. simpl. f_equal.
    clear. induction trace as [|o trace IH]; [done|].
    destruct o; simpl; try exact IH. f_equal. exact IH.
  - clear -Hall. induction Hall as [|f o files trace Hfo _ IH]; [constructor|].
    destruct o as [| | |o_file o_new|]; simpl; try exact IH.
    constructor; [|exact IH]. simpl in *. destruct Hfo as [-> Hnew].
    by split.
Qed.

Lemma error_entries_le (trace : list outcome) :
  length (omap error_entry_of trace)
  ≤ length (List.filter (λ o, negb (is_rename o)) trace).
Proof.
  induction trace as [|o trace IH]; [done|].
  destruct o; simpl;
    first [exact IH | apply le_n_S; exact IH | apply Nat.le_le_succ_r; exact IH].
Qed.

(** X15. The report of a pass that started with empty lists, as [main]
    starts both of its passes: the list of renamed files is as long as the
    count under [renamed]; the list of errors holds only the failed rename
    calls and so can be shorter than the count under [errors], never
    longer; the database size and the target directory are those of the
    renamer before the pass. *)
Theorem report_totals (rename_error : string → string → option string)
    (self : renamer) (fs : directory) (dry_run : bool) :
  renamed_files self = [] → errors self = [] →
  let '(self', _, stats, trace) :=
    process_directory rename_error self fs dry_run in
  let report := save_report self' stats dry_run in
  length (Report.renamed_files report)
  = Stats.renamed (Report.statistics report)
  ∧ Report.errors report = omap error_entry_of trace
  ∧ length (Report.errors report) ≤ Stats.errors (Report.statistics report)
  ∧ Report.database_size report = size (game_database self)
  ∧ Report.target_directory report = target_directory self.
Proof.
  intros Hrenamed Herrors. unfold process_directory.
  set (stats0 := {| Stats.total_files := length (glob_pkg fs);
                    Stats.processed := 0; Stats.renamed := 0;
                    Stats.errors := 0; Stats.skipped := 0 |}).
  pose proof (process_files_counts rename_error (glob_pkg fs) dry_run self fs
                stats0) as H1.
  pose proof (process_files_more rename_error (glob_pkg fs) dry_run self fs
                stats0) as H2.
  pose proof (process_files_database rename_error (glob_pkg fs) dry_run self
                fs stats0) as H3.
  destruct (process_files _ _ _ _ _ _) as [[[self' fs'] stats'] trace].
  destruct H1 as (_ & He & Hr & Herr).
  destruct H2 as (_ & _ & _ & Hren & Hdir & _).
  simpl in H3. rewrite Hrenamed in Hren. rewrite Herrors in Herr.
  simpl in Hren, Herr |- *. split_and!.
  - rewrite Hren, Hr. simpl.
    clear. induction trace as [|o trace IH]; [done|].
    destruct o; simpl; try exact IH. f_equal. exact IH.
  - done.
  - rewrite Herr, He. simpl. apply error_entries_le.
  - by rewrite H3.
  - done.
Qed.

Lemma report_totals_witness :
  let db : database :=
    {[ "CUSA00012" := {| GameInfo.name := "Example Game";
                         GameInfo.version := Some "0283";
                         GameInfo.source := "CSV:titles.csv" |} ]} in
  let self := {| target_directory := "/games"; game_database := db;
                 renamed_files := []; errors := [] |} in
  let fs := ["CUSA00012-TITLEID-V0100.pkg"; "unknown.pkg"] in
  let '(self', _, stats, _) := process_directory never_refuses self fs false in
  length (Report.errors (save_report self' stats false)) ≤ Stats.errors stats.
Proof.
  intros db self fs.
  pose proof (report_totals never_refuses self fs false eq_refl eq_refl) as H.
  destruct (process_directory never_refuses self fs false)
    as [[[self' fs'] stats'] trace].
  by destruct H as (_ & _ & H & _).
Defined.

(** ** What a pass does to the directory *)








Lemma Forall2_elem_of_r {A B} (P : A → B → Prop) l k y :
  Forall2 P l k → y ∈ k → ∃ x, x ∈ l ∧ P x y.
Proof.
  intros H. induction H as [|x y' l k Hxy _ IH]; [by intros ?%elem_of_nil|].
  intros [->|Hy]%elem_of_cons.
  - exists x. split; [by left|done].
  - destruct (IH Hy) as (x' & ? & ?). exists x'. split; [by right|done].
Qed.

(** X17. A file is renamed, or reported as renamed by a dry run, only if it
    is a [.pkg] entry of the directory whose name parses and whose
    identifier has a record in the database; the new name is the one
    generated from that record. *)
Theorem renamed_only_with_record
    (rename_error : string → string → option string)
    (self : renamer) (fs : directory) (dry_run : bool) (f t : string) :
  let '(_, _, _, trace) := process_directory rename_error self fs dry_run in
  WouldRename f t ∈ trace →
  f ∈ fs ∧ PyStr.endswith ".pkg" f = true
  ∧ ∃ parsed id info,
      parse_filename f = Some parsed ∧ cusa parsed = Some id
      ∧ game_database self !! id = Some info
      ∧ generate_new_filename (game_database self) parsed f = Some t.
Proof.
  unfold process_directory.
  set (stats0 := {| Stats.total_files := length (glob_pkg fs);
                    Stats.processed := 0; Stats.renamed := 0;
                    Stats.errors := 0; Stats.skipped := 0 |}).
  pose proof (process_files_counts rename_error (glob_pkg fs) dry_run self fs
                stats0) as H.
  destruct (process_files _ _ _ _ _ _) as [[[self' fs'] stats'] trace].
  destruct H as (Hall & _). intros Hin.
  destruct (Forall2_elem_of_r _ _ _ _ Hall Hin) as (f' & Hf' & Hc).
  simpl in Hc. destruct Hc as [-> Hnew].
  apply list_elem_of_filter in Hf' as [Hpkg Hf'].
  split_and!; [done|done|].
  unfold new_name_for in Hnew.
  destruct (parse_filename f') as [parsed|] eqn:Hparse; [|done].
  simpl in Hnew.
  destruct (generate_new_filename_tail _ _ _ _ Hparse Hnew)
    as (id & info & _ & Hid & _ & Hdb & _).
  by exists parsed, id, info.
Qed.

Lemma renamed_only_with_record_witness :
  let db : database :=
    {[ "CUSA00012" := {| GameInfo.name := "Example Game";
                         GameInfo.version := Some "0283";
                         GameInfo.source := "CSV:titles.csv" |} ]} in
  let self := {| target_directory := "/games"; game_database := db;
                 renamed_files := []; errors := [] |} in
  "CUSA00012-TITLEID-V0100.pkg" ∈ ["notes.txt"; "CUSA00012-TITLEID-V0100.pkg"].
Proof.
  intros db self.
  pose proof (renamed_only_with_record never_refuses self
                ["notes.txt"; "CUSA00012-TITLEID-V0100.pkg"] false
                "CUSA00012-TITLEID-V0100.pkg"
                "Example Game [UPDATE 2.83][CUSA00012].pkg") as H.
  destruct (process_directory never_refuses self
              ["notes.txt"; "CUSA00012-TITLEID-V0100.pkg"] false)
    as [[[self' fs'] stats'] trace] eqn:E.
  vm_compute in E. injection E as _ _ _ <-.
  apply H. repeat constructor.
Defined.

(** ** The catalog export *)

Lemma catalog_keys_append_link id e (g : Catalog.games) :
  (Catalog.append_link id e g).*1 = g.*1.
Proof.
  induction g as [|[k gm] g IH]; [done|]. cbn [Catalog.append_link].
  destruct (decide (k = id)); rewrite !fmap_cons; [done|]. by rewrite IH.
Qed.

Lemma catalog_get_None id (g : Catalog.games) :
  Catalog.get id g = None ↔ id ∉ g.*1.
Proof.
  induction g as [|[k gm] g IH]; simpl.
  - split; [intros _; apply not_elem_of_nil|done].
  - rewrite not_elem_of_cons. destruct (decide (k = id)) as [->|Hne].
    + split; [done|]. by intros [? _].
    + rewrite IH. split; [|by intros [_ ?]]. intros ?. split; [|done].
      by intros ->.
Qed.

Lemma catalog_get_append_link id' id e (g : Catalog.games) :
  Catalog.get id' (Catalog.append_link id e g)
  = if decide (id' = id)
    then (λ gm, {| Catalog.title_name := Catalog.title_name gm;
                   Catalog.version := Catalog.version gm;
                   Catalog.download_links :=
                     Catalog.download_links gm ++ [e] |})
           <$> Catalog.get id g
    else Catalog.get id' g.
Proof.
  induction g as [|[k gm] g IH]; simpl.
  { by destruct (decide (id' = id)). }
  destruct (decide (k = id)) as [->|Hk]; simpl.
  - destruct (decide (id = id')) as [<-|Hne].
    + by rewrite decide_True.
    + by rewrite decide_False.
  - destruct (decide (k = id')) as [->|Hk'].
    + by rewrite decide_False.
    + exact IH.
Qed.

Lemma catalog_get_snoc id' id gm (g : Catalog.games) :
  Catalog.get id' (g ++ [(id, gm)])
  = match Catalog.get id' g with
    | Some x => Some x
    | None => if decide (id = id') then Some gm else None
    end.
Proof.
  induction g as [|[k gm'] g IH]; simpl; [done|].
  by destruct (decide (k = id')).
Qed.

Lemma catalog_total_append_link id e (g : Catalog.games) :
  id ∈ g.*1 →
  Catalog.total_links (Catalog.append_link id e g)
  = S (Catalog.total_links g).
Proof.
  unfold Catalog.total_links.
  induction g as [|[k gm] g IH]; [by intros ?%elem_of_nil|].
  cbn [Catalog.append_link]. rewrite fmap_cons.
  destruct (decide (k = id)) as [->|Hk]; rewrite !fmap_cons; cbn [sum_list snd].
  - intros _. cbn [Catalog.download_links]. rewrite length_app. simpl. lia.
  - intros [?|Hin]%elem_of_cons; [done|]. rewrite (IH Hin). lia.
Qed.

Lemma catalog_total_snoc id gm (g : Catalog.games) :
  Catalog.total_links (g ++ [(id, gm)])
  = Catalog.total_links g + length (Catalog.download_links gm).
Proof.
  unfold Catalog.total_links.
  induction g as [|[k gm'] g IH]; [simpl; lia|].
  rewrite <- app_comm_cons, !fmap_cons. cbn [sum_list]. rewrite IH. lia.
Qed.

(** What one turn of the loop does, when it does not raise. *)
Lemma catalog_add_row row (g0 g1 : Catalog.games) :
  Catalog.add_row row g0 = Some g1 →
  ∃ id e, (row !! "Title_ID") = Some id ∧ Catalog.link_of row = Some e
    ∧ ((id ∈ g0.*1 ∧ g1 = Catalog.append_link id e g0)
       ∨ ((id ∉ g0.*1)
          ∧ ∃ nm v, row !! "Title_Name" = Some nm ∧ row !! "Version" = Some v
              ∧ g1 = Catalog.append_link id e
                       (g0 ++ [(id, {| Catalog.title_name := nm;
                                       Catalog.version := v;
                                       Catalog.download_links := [] |})]))).
Proof.
  unfold Catalog.add_row. intros H.
  destruct (row !! "Title_ID") as [id|]; [|done]. simpl in H.
  case_bool_decide as Hin.
  - simpl in H. destruct (Catalog.link_of row) as [e|]; [|done].
    injection H as <-. exists id, e. split_and!; [done|done|]. by left.
  - destruct (row !! "Title_Name") as [nm|]; [|done].
    destruct (row !! "Version") as [v|]; [|done]. simpl in H.
    destruct (Catalog.link_of row) as [e|]; [|done].
    injection H as <-. exists id, e. split_and!; [done|done|].
    right. split; [done|]. by exists nm, v.
Qed.

Lemma catalog_rows_of_cons id row rows :
  Catalog.rows_of id (row :: rows)
  = if decide (row !! "Title_ID" = Some id)
    then row :: Catalog.rows_of id rows else Catalog.rows_of id rows.
Proof.
  unfold Catalog.rows_of. destruct (decide _).
  - by rewrite filter_cons_True.
  - by rewrite filter_cons_False.
Qed.

(** The loop, from any dict: the keys stay apart, a game that was in the
    dict keeps its name and its version and gets the files of its rows, and
    a game that was not is made from the first of its rows. *)
Lemma catalog_load_rows rows :
  ∀ g0 g : Catalog.games,
    Catalog.load_rows rows g0 = Some g → NoDup g0.*1 →
    NoDup g.*1
    ∧ Catalog.total_links g = Catalog.total_links g0 + length rows
    ∧ ∀ id,
        match Catalog.get id g0 with
        | Some gm0 =>
            ∃ gm ls, Catalog.get id g = Some gm
              ∧ Catalog.title_name gm = Catalog.title_name gm0
              ∧ Catalog.version gm = Catalog.version gm0
              ∧ Catalog.download_links gm = Catalog.download_links gm0 ++ ls
              ∧ Forall2 Catalog.listed (Catalog.rows_of id rows) ls
        | None =>
            match Catalog.rows_of id rows with
            | [] => Catalog.get id g = None
            | first :: _ =>
                ∃ gm, Catalog.get id g = Some gm
                  ∧ first !! "Title_Name" = Some (Catalog.title_name gm)
                  ∧ first !! "Version" = Some (Catalog.version gm)
                  ∧ Forall2 Catalog.listed (Catalog.rows_of id rows)
                      (Catalog.download_links gm)
            end
        end.
Proof.
  induction rows as [|row rows IH]; intros g0 g Hload Hnodup.
  { simpl in Hload. injection Hload as <-. split_and!; [done|simpl; lia|].
    intros id. destruct (Catalog.get id g0) as [gm0|] eqn:Hget; [|done].
    exists gm0, []. rewrite app_nil_r. by split_and!. }
  simpl in Hload.
  destruct (Catalog.add_row row g0) as [g1|] eqn:Hadd; [|done].
  simpl in Hload.
  destruct (catalog_add_row _ _ _ Hadd)
    as (tid & e & Htid & He & [[Hin ->]|(Hin & nm & v & Hnm & Hv & ->)]).
  - destruct (IH _ _ Hload) as (Hkeys & Htotal & Hget).
    { by rewrite catalog_keys_append_link. }
    split_and!; [done| |].
    { rewrite Htotal, catalog_total_append_link by done. simpl. lia. }
    intros id. specialize (Hget id).
    rewrite catalog_get_append_link in Hget.
    rewrite catalog_rows_of_cons, Htid.
    destruct (decide (id = tid)) as [->|Hne].
    + rewrite decide_True by done.
      destruct (Catalog.get tid g0) as [gm0|] eqn:Hg0.
      2:{ by apply catalog_get_None in Hg0. }
      simpl in Hget. destruct Hget as (gm & ls & ? & ? & ? & Hls & ?).
      exists gm, (e :: ls). rewrite Hls, <- app_assoc.
      split_and!; try done. by constructor.
    + rewrite decide_False by congruence. exact Hget.
  - set (fresh := {| Catalog.title_name := nm; Catalog.version := v;
                     Catalog.download_links := [] |}) in *.
    destruct (IH _ _ Hload) as (Hkeys & Htotal & Hget).
    { rewrite catalog_keys_append_link, fmap_app. simpl.
      apply NoDup_app. split_and!; [done| |apply NoDup_singleton].
      by intros x Hx ->%list_elem_of_singleton. }
    split_and!; [done| |].
    { rewrite Htotal, catalog_total_append_link, catalog_total_snoc.
      - simpl. lia.
      - rewrite fmap_app. apply elem_of_app. right. simpl. by left. }
    intros id. specialize (Hget id).
    rewrite catalog_get_append_link, !catalog_get_snoc in Hget.
    rewrite catalog_rows_of_cons, Htid.
    apply catalog_get_None in Hin.
    destruct (decide (id = tid)) as [->|Hne].
    + rewrite decide_True by done. rewrite Hin in Hget |- *.
      rewrite decide_True in Hget by done. simpl in Hget.
      destruct Hget as (gm & ls & ? & Hname & Hversion & Hls & ?).
      exists gm. rewrite Hname, Hversion, Hls.
      split_and!; try done. by constructor.
    + rewrite decide_False by congruence.
      destruct (Catalog.get id g0) as [gm0|]; [exact Hget|].
      by rewrite decide_False in Hget by done.
Qed.

(** X18. When the module-level [load_csv_data] returns, its dict has one
    game for each title of the file and no other: the name and the version
    are those of the first row of the title, and the files are those of all
    the rows of the title, in the order of the file, whatever version the
    later rows give. *)
Theorem catalog_groups_rows (rows : list (gmap string Catalog.cell))
    (games_data : Catalog.games) (title_id : Catalog.cell) :
  Catalog.load_csv_data (Some rows) = Some games_data →
  NoDup games_data.*1
  ∧ match Catalog.rows_of title_id rows with
    | [] => Catalog.get title_id games_data = None
    | first :: _ =>
        ∃ g, Catalog.get title_id games_data = Some g
          ∧ first !! "Title_Name" = Some (Catalog.title_name g)
          ∧ first !! "Version" = Some (Catalog.version g)
          ∧ Forall2 Catalog.listed (Catalog.rows_of title_id rows)
              (Catalog.download_links g)
    end.
Proof.
  intros Hload. simpl in Hload.
  destruct (catalog_load_rows rows [] games_data Hload) as (Hkeys & _ & Hget).
  { constructor. }
  split; [done|]. exact (Hget title_id).
Qed.

Lemma catalog_groups_rows_witness :
  let row (v f : string) : gmap string Catalog.cell :=
    {[ "Title_ID" := Some "CUSA00012_00"; "Title_Name" := Some "Example Game";
       "Version" := Some v; "Filename" := Some f;
       "Download_URL" := Some "http://host/f"; "Size_Bytes" := Some "12";
       "SHA1_Hash" := None ]} in
  ∃ g, Catalog.get (Some "CUSA00012_00")
         [(Some "CUSA00012_00",
           {| Catalog.title_name := Some "Example Game";
              Catalog.version := Some "01.00";
              Catalog.download_links :=
                [ {| Catalog.filename := Some "a.pkg";
                     Catalog.url := Some "http://host/f";
                     Catalog.size := 12; Catalog.sha1 := None |};
                  {| Catalog.filename := Some "b.pkg";
                     Catalog.url := Some "http://host/f";
                     Catalog.size := 12; Catalog.sha1 := None |} ] |})]
       = Some g
    ∧ Catalog.version g = Some "01.00"
    ∧ length (Catalog.download_links g) = 2.
Proof.
  intros row.
  pose proof (catalog_groups_rows [row "01.00" "a.pkg"; row "02.00" "b.pkg"]
                _ (Some "CUSA00012_00") eq_refl) as [_ H].
  destruct H as (g & Hget & _ & Hv & Hfiles).
  exists g. split_and!; [exact Hget|by injection Hv|].
  by apply Forall2_length in Hfiles.
Defined.

(** X19. When the module-level [load_csv_data] returns, its dict lists as
    many files as the file has rows: each row gives one file, under one
    title. *)
Theorem catalog_counts_rows (rows : list (gmap string Catalog.cell))
    (games_data : Catalog.games) :
  Catalog.load_csv_data (Some rows) = Some games_data →
  Catalog.total_links games_data = length rows.
Proof.
  intros Hload. simpl in Hload.
  destruct (catalog_load_rows rows [] games_data Hload) as (_ & Htotal & _).
  { constructor. }
  exact Htotal.
Qed.

Lemma catalog_counts_rows_witness :
  let row (id f : string) : gmap string Catalog.cell :=
    {[ "Title_ID" := Some id; "Title_Name" := Some "Example Game";
       "Version" := Some "01.00"; "Filename" := Some f;
       "Download_URL" := Some "http://host/f"; "Size_Bytes" := Some "";
       "SHA1_Hash" := Some "da39" ]} in
  let rows := [row "CUSA00012_00" "a.pkg"; row "CUSA00034_00" "c.pkg";
               row "CUSA00012_00" "b.pkg"] in
  ∃ games_data, Catalog.load_csv_data (Some rows) = Some games_data
    ∧ Catalog.total_links games_data = 3.
Proof.
  intros row rows. eexists. split; [reflexivity|].
  exact (catalog_counts_rows rows _ eq_refl).
Defined.

Lemma catalog_load_rows_raises rows :
  ∀ (g0 : Catalog.games) row,
    row ∈ rows → Catalog.link_of row = None →
    Catalog.load_rows rows g0 = None.
Proof.
  induction rows as [|r rows IH]; intros g0 row Hin Hrow.
  { by apply elem_of_nil in Hin. }
  simpl. destruct (Catalog.add_row r g0) as [g1|] eqn:Hadd; [|done].
  simpl. apply elem_of_cons in Hin as [<-|Hin]; [|by apply (IH g1 row)].
  destruct (catalog_add_row _ _ _ Hadd) as (? & e & _ & He & _). congruence.
Qed.

(** X20. One row whose size is neither empty nor an integer makes the
    module-level [load_csv_data] raise, wherever the row stands: no dict is
    returned, also not for the rows before it. *)
Theorem catalog_bad_size_raises (rows : list (gmap string Catalog.cell))
    (row : gmap string Catalog.cell) (s : string) :
  row ∈ rows → row !! "Size_Bytes" = Some (Some s) →
  s ≠ "" → PyInt.int s = None →
  Catalog.load_csv_data (Some rows) = None.
Proof.
  intros Hin Hsize Hne Hint. simpl.
  apply (catalog_load_rows_raises rows [] row Hin).
  unfold Catalog.link_of. rewrite Hsize.
  destruct (row !! "Filename"); [|done]. simpl.
  destruct (row !! "Download_URL"); [|done]. simpl.
  destruct s as [|c s]; [done|]. cbn [PyStr.is_empty]. by rewrite Hint.
Qed.

Lemma catalog_bad_size_raises_witness :
  let row (sz : string) : gmap string Catalog.cell :=
    {[ "Title_ID" := Some "CUSA00012_00"; "Title_Name" := Some "Example Game";
       "Version" := Some "01.00"; "Filename" := Some "a.pkg";
       "Download_URL" := Some "http://host/f"; "Size_Bytes" := Some sz;
       "SHA1_Hash" := Some "da39" ]} in
  Catalog.load_csv_data (Some [row "12"; row "1.5 GB"; row "7"]) = None.
Proof.
  intros row.
  apply (catalog_bad_size_raises _ (row "1.5 GB") "1.5 GB");
    [|reflexivity|done|vm_compute; reflexivity].
  apply list_elem_of_lookup. by exists 1.
Defined.

(** X21. From the file to the updates: [create_updates_structure], applied
    to what [load_csv_data] returns, gives each title one entry and each
    entry one version, the version of the first row of the title, with
    the files of all the rows of the title. *)
Theorem updates_hold_one_version (rows : list (gmap string Catalog.cell))
    (games_data : Catalog.games) (title_id : Catalog.cell)
    (u : Catalog.update) :
  Catalog.load_csv_data (Some rows) = Some games_data →
  (title_id, u) ∈ Catalog.create_updates_structure games_data →
  NoDup (Catalog.create_updates_structure games_data).*1
  ∧ ∃ first rest v files,
      Catalog.rows_of title_id rows = first :: rest
      ∧ first !! "Title_Name" = Some (Catalog.name u)
      ∧ first !! "Version" = Some v
      ∧ Catalog.versions u = [(v, files)]
      ∧ Forall2 Catalog.listed (first :: rest) files.
Proof.
  intros Hload Hin. simpl in Hload.
  destruct (catalog_load_rows rows [] games_data Hload) as (Hkeys & _ & Hget).
  { constructor. }
  assert (Hfst : (Catalog.create_updates_structure games_data).*1
                 = games_data.*1).
  { unfold Catalog.create_updates_structure. rewrite <- list_fmap_compose.
    apply list_fmap_ext. by intros i [k g] _. }
  split; [by rewrite Hfst|].
  unfold Catalog.create_updates_structure in Hin.
  apply list_elem_of_fmap in Hin as ([k g] & Heq & Hin).
  injection Heq as -> ->. cbn [Catalog.name Catalog.versions].
  assert (Hg : Catalog.get k games_data = Some g).
  { clear Hget Hload Hfst. induction games_data as [|[k' g'] gs IH].
    { by apply elem_of_nil in Hin. }
    simpl in Hkeys. apply NoDup_cons in Hkeys as [Hk' Hkeys]. simpl.
    apply elem_of_cons in Hin as [[= <- <-]|Hin].
    - by rewrite decide_True.
    - rewrite decide_False; [by apply IH|].
      intros ->. apply Hk'. apply list_elem_of_fmap. by exists (k, g). }
  specialize (Hget k). simpl in Hget.
  destruct (Catalog.rows_of k rows) as [|first rest]; [congruence|].
  destruct Hget as (g' & Hg' & Hname & Hversion & Hfiles).
  rewrite Hg in Hg'. injection Hg' as <-.
  by exists first, rest, (Catalog.version g), (Catalog.download_links g).
Qed.

Lemma updates_hold_one_version_witness :
  let row (v f : string) : gmap string Catalog.cell :=
    {[ "Title_ID" := Some "CUSA00012_00"; "Title_Name" := Some "Example Game";
       "Version" := Some v; "Filename" := Some f;
       "Download_URL" := Some "http://host/f"; "Size_Bytes" := Some "12";
       "SHA1_Hash" := None ]} in
  let entry (f : string) :=
    {| Catalog.filename := Some f; Catalog.url := Some "http://host/f";
       Catalog.size := 12; Catalog.sha1 := None |} in
  ∃ v files,
    [(Some "01.00", [entry "a.pkg"; entry "b.pkg"])] = [(v, files)]
    ∧ length files = 2.
Proof.
  intros row entry.
  pose proof (updates_hold_one_version
                [row "01.00" "a.pkg"; row "02.00" "b.pkg"] _
                (Some "CUSA00012_00")
                {| Catalog.name := Some "Example Game";
                   Catalog.versions :=
                     [(Some "01.00", [entry "a.pkg"; entry "b.pkg"])] |}
                eq_refl) as H.
  destruct H as (_ & first & rest & v & files & Hrows & _ & _ & Hv & Hfiles).
  { vm_compute. repeat constructor. }
  exists v, files. split; [exact Hv|].
  apply Forall2_length in Hfiles. rewrite <- Hfiles, <- Hrows. reflexivity.
Defined.

(** ** The backup prompt *)

(** X22. [ask_for_backup] asks again after every line that is neither a yes
    nor a no, and returns at the first line that is one: true for [y] and
    [yes], false for [n], [no] and the empty answer, whatever the case of
    the letters and the whitespace around them. The lines after that one
    are left unread. *)
Theorem ask_for_backup_first_answer (skipped : list string) (line : string)
    (rest : list string) :
  Forall (λ l, ¬ says_yes l ∧ ¬ says_no l) skipped →
  says_yes line ∨ says_no line →
  ask_for_backup (skipped ++ line :: rest)
  = (Some (bool_decide (says_yes line)), rest).
Proof.
  intros Hskipped Hline.
  induction Hskipped as [|l skipped [Hyes Hno] _ IH].
  - cbn [app ask_for_backup]. unfold says_yes, says_no in *.
    destruct (decide (lower (PyStr.strip line) ∈ ["y"; "yes"])) as [Hy|Hy].
    + by rewrite !(bool_decide_eq_true_2 _ Hy).
    + destruct Hline as [?|Hn]; [done|].
      by rewrite !(bool_decide_eq_false_2 _ Hy), (bool_decide_eq_true_2 _ Hn).
  - cbn [app ask_for_backup]. unfold says_yes, says_no in Hyes, Hno.
    by rewrite (bool_decide_eq_false_2 _ Hyes), (bool_decide_eq_false_2 _ Hno).
Qed.

Lemma ask_for_backup_first_answer_witness :
  ask_for_backup ["maybe"; "y es"; "  YeS "; "n"] = (Some true, ["n"]).
Proof.
  apply (ask_for_backup_first_answer ["maybe"; "y es"] "  YeS " ["n"]).
  - repeat constructor; by apply (bool_decide_unpack _).
  - left. by apply (bool_decide_unpack _).
Defined.

(** X23. When no line of the input is a yes or a no, [ask_for_backup]
    never returns an answer: it reads every line and the end of the input
    is what stops it. In particular it has no default after a number of
    attempts. *)
Theorem ask_for_backup_keeps_asking (inputs : list string) :
  Forall (λ l, ¬ says_yes l ∧ ¬ says_no l) inputs ↔
  ask_for_backup inputs = (None, []).
Proof.
  induction inputs as [|l inputs IH]; [by split; [|constructor]|].
  cbn [ask_for_backup]. rewrite Forall_cons, IH.
  unfold says_yes, says_no. repeat case_bool_decide; intuition congruence.
Qed.
